(** * The PDF viewer and its annotation overlays

    A shallow embedding of [frontend/app/components/PdfViewer.tsx] (with
    the host page [frontend/app/page.tsx] where the viewer's controlled
    props come from), and the properties of the viewport / overlay engine
    established or refuted on it.  The second half covers the rest of the
    front end: the host page, [UploadDropzone.tsx], [PdfWrapper.tsx] and
    [MarkdownOutput.tsx], and the page as a whole.

    Conventions of the embedding.
    - A JavaScript [number] is an IEEE 754 binary64 value ([float], the
      primitive doubles of Rocq), with the arithmetic and the comparisons
      of the processor.  Page numbers and counts, which the program only
      compares and moves by one, are integers ([Z]).
    - [undefined] and [null] are [None].
    - React state is a record; every handler is a function from the state
      before the call to the state after all its setters have run. *)

From Stdlib Require Import ZArith QArith Qround String Ascii List Lia.
From Stdlib Require Import Floats Uint63.
From stdpp Require Import base gmap strings list pretty.

Local Open Scope Z_scope.

(** ** JavaScript primitives used by the component *)

Module JS.

(** A number that may be [undefined] (or the [NaN] that arithmetic on
    [undefined] yields). *)
Definition num := option float.

(** [a - b]. *)
Definition sub (a b : num) : num :=
  match a, b with
  | Some x, Some y => Some (x - y)%float
  | _, _ => None
  end.

(** Truthiness of a number: [undefined], [null], [0], [-0] and [NaN] are
    falsy. *)
Definition truthy (a : num) : bool :=
  match a with
  | Some x => negb ((x =? 0)%float || PrimFloat.is_nan x)
  | None => false
  end.

(** The real number that the finite double of sign [s], mantissa [m] and
    exponent [e] stands for. *)
Definition real (s : bool) (m : positive) (e : Z) : Q :=
  ((if s then -1 else 1) * inject_Z (Z.pos m) * Qpower 2 e)%Q.

(** The double of an integer of magnitude at most 2^53. *)
Definition of_integer (n : Z) : float :=
  let r := PrimFloat.of_uint63 (Uint63.of_Z (Z.abs n)) in
  if n <? 0 then (- r)%float else r.

(** [Math.round]: the integer nearest to [x], a half going up; [NaN],
    the infinities and the zeros are returned as they are, and so is a
    double with no fractional part; a negative [x] that rounds to zero
    gives [-0]. *)
Definition round (x : float) : float :=
  match Prim2SF x with
  | S754_finite s m e =>
      if 0 <=? e then x
      else
        let n := Qfloor (real s m e + (1 # 2))%Q in
        if (n =? 0) && s then (- 0)%float else of_integer n
  | _ => x
  end.

(** [Math.min] on two numbers: [NaN] if one of them is, else the lesser,
    [-0] counting as less than [+0]. *)
Definition min_number (a b : float) : float :=
  if PrimFloat.is_nan a || PrimFloat.is_nan b then PrimFloat.nan
  else if (a <? b)%float then a
  else if (b <? a)%float then b
  else if PrimFloat.get_sign a then a else b.

(** [Math.min] and [Math.max] on page numbers. *)
Definition min (a b : Z) : Z := Z.min a b.
Definition max (a b : Z) : Z := Z.max a b.

(** [hay.includes(needle)] *)
Fixpoint includes (needle hay : string) : bool :=
  if String.prefix needle hay then true
  else match hay with
       | EmptyString => false
       | String _ rest => includes needle rest
       end.

(** The result of a property read [o[k]] on an object literal whose own
    properties are strings. *)
Inductive propval :=
| PUndefined
| PString (s : string)
| PInherited (name : string).

(** The properties every object literal inherits from
    [Object.prototype]. *)
Definition Object_prototype : list string :=
  [ "constructor"; "hasOwnProperty"; "isPrototypeOf";
    "propertyIsEnumerable"; "toLocaleString"; "toString"; "valueOf";
    "__proto__"; "__defineGetter__"; "__defineSetter__";
    "__lookupGetter__"; "__lookupSetter__" ]%string.

(** [o[k]]: the own property when there is one, else the inherited
    one, else [undefined]. *)
Definition get (o : gmap string string) (k : string) : propval :=
  match o !! k with
  | Some v => PString v
  | None => if decide (k ∈ Object_prototype) then PInherited k
            else PUndefined
  end.

(** Truthiness of a property value: [undefined] and the empty string
    are falsy, functions and objects are truthy. *)
Definition truthy_prop (v : propval) : bool :=
  match v with
  | PUndefined => false
  | PString s => negb (String.eqb s "")
  | PInherited _ => true
  end.

(** [v || d] *)
Definition or_else (v : propval) (d : string) : propval :=
  if truthy_prop v then v else PString d.

End JS.

(** ** The viewer component *)

Module PdfViewer.

Definition COLOR_MAP : gmap string string :=
  list_to_map
    [ ("title", "border-red-500");
      ("header", "border-blue-500");
      ("paragraph", "border-green-500");
      ("table", "border-purple-500");
      ("figure", "border-yellow-500") ]%string.

(** [interface Element]; the bbox is [x_min, y_min, x_max, y_max],
    normalized to 0-1000. *)
Record Element := mkElement {
  type : string;
  bbox : list float;
  page : Z
}.

(** [elements.filter(e => e.page === currentPage)] *)
Definition annotations (elements : list Element) (currentPage : Z)
  : list Element :=
  filter (fun e => page e = currentPage) elements.

(** [el.bbox.map(c => (c * pageWidth) / 1000)] *)
Definition denormalize (pageWidth : float) (b : list float) : list float :=
  map (fun c => (c * pageWidth) / 1000)%float b.

(** The class name is a template literal: fixed classes followed by
    one interpolated value. *)
Record ClassName := mkClassName {
  fixed : string;
  border : JS.propval
}.

(** One overlay [<div>]. *)
Record Overlay := mkOverlay {
  key : nat;
  className : ClassName;
  left : JS.num;
  top : JS.num;
  width : JS.num;
  height : JS.num;
  zIndex : Z;
  title : string
}.

(** The body of [annotations.map((el, index) => ...)]. *)
Definition overlay (pageWidth : float) (index : nat) (el : Element) : Overlay :=
  let px := denormalize pageWidth (bbox el) in
  let x_min := px !! 0%nat in
  let y_min := px !! 1%nat in
  let x_max := px !! 2%nat in
  let y_max := px !! 3%nat in
  let height := JS.sub y_max y_min in
  let width := JS.sub x_max x_min in
  {| key := index;
     className :=
       {| fixed := "absolute border-2 opacity-50 hover:opacity-100 transition-opacity ";
          border := JS.or_else (JS.get COLOR_MAP (type el)) "border-gray-500" |};
     left := x_min;
     top := y_min;
     width := width;
     height := height;
     zIndex := 10;
     title := "Type: " ++ type el |}.

(** [pageWidth > 0 && annotations.map(...)] *)
Definition overlays (elements : list Element) (currentPage : Z)
           (pageWidth : float) : list Overlay :=
  if (0 <? pageWidth)%float
  then imap (overlay pageWidth) (annotations elements currentPage)
  else [].

(** *** Props and state *)

(** A [File] handed over by the host, known by its identity. *)
Definition File := nat.

(** An object URL, known by its serial number in the URL registry. *)
Definition Url := nat.

(** The props of the component ([elements] apart, which is only read),
    its [useState] cells, and the cleanup its object-URL effect last
    returned.  [currentPage] is owned by the host: [onPageChange] is its
    [setCurrentPage]. *)
Record View := mkView {
  file : option File;
  currentPage : Z;
  numPages : option Z;
  pageWidth : float;
  loadProgress : option float;
  error : option string;
  fileUrl : option Url;
  renderText : bool;
  cleanup : option Url
}.

Definition setNumPages (n : option Z) (v : View) : View :=
  mkView (file v) (currentPage v) n (pageWidth v) (loadProgress v)
         (error v) (fileUrl v) (renderText v) (cleanup v).

Definition setPageWidth (w : float) (v : View) : View :=
  mkView (file v) (currentPage v) (numPages v) w (loadProgress v)
         (error v) (fileUrl v) (renderText v) (cleanup v).

Definition setLoadProgress (p : option float) (v : View) : View :=
  mkView (file v) (currentPage v) (numPages v) (pageWidth v) p
         (error v) (fileUrl v) (renderText v) (cleanup v).

Definition setError (e : option string) (v : View) : View :=
  mkView (file v) (currentPage v) (numPages v) (pageWidth v)
         (loadProgress v) e (fileUrl v) (renderText v) (cleanup v).

Definition setFileUrl (u : option Url) (v : View) : View :=
  mkView (file v) (currentPage v) (numPages v) (pageWidth v)
         (loadProgress v) (error v) u (renderText v) (cleanup v).

Definition setRenderText (b : bool) (v : View) : View :=
  mkView (file v) (currentPage v) (numPages v) (pageWidth v)
         (loadProgress v) (error v) (fileUrl v) b (cleanup v).

(** [onPageChange], as the host page passes it: [setCurrentPage]. *)
Definition onPageChange (p : Z) (v : View) : View :=
  mkView (file v) p (numPages v) (pageWidth v) (loadProgress v)
         (error v) (fileUrl v) (renderText v) (cleanup v).

(** The initial values of the state cells, for the props given. *)
Definition initial (f : option File) (current : Z) : View :=
  {| file := f; currentPage := current; numPages := None;
     pageWidth := 0%float; loadProgress := None; error := None;
     fileUrl := None; renderText := false; cleanup := None |}.

(** *** Load callbacks *)

Definition onDocumentLoadSuccess (n : Z) (v : View) : View :=
  setLoadProgress None (onPageChange 1 (setError None (setNumPages (Some n) v))).

Definition WORKER_MESSAGE : string :=
  "PDF worker failed to load. Please check your internet connection and try again.".

Definition CORRUPT_MESSAGE : string :=
  "The PDF file appears to be corrupted or invalid.".

(** The text [onDocumentLoadError] stores for a failure [message]. *)
Definition errorMessage (message : string) : string :=
  if JS.includes "Worker" message || JS.includes "worker" message
  then WORKER_MESSAGE
  else if JS.includes "Invalid" message || JS.includes "corrupted" message
  then CORRUPT_MESSAGE
  else "Failed to load PDF file: " ++ message.

Definition onDocumentLoadError (message : string) (v : View) : View :=
  setError (Some (errorMessage message)) v.

(** The error taxonomy. The component stores the text only; the kind
    of a stored text is which of the three texts it is. *)
Inductive ErrorKind :=
| WorkerUnavailable
| CorruptDocument
| Unknown.

Definition errorKind (text : string) : ErrorKind :=
  if decide (text = WORKER_MESSAGE) then WorkerUnavailable
  else if decide (text = CORRUPT_MESSAGE) then CorruptDocument
  else Unknown.

(** The argument of the progress callback. *)
Record Progress := mkProgress {
  loaded : JS.num;
  total : JS.num
}.

(** [Math.min(100, Math.round((loaded / total) * 100))] *)
Definition pct (l t : float) : float :=
  JS.min_number 100 (JS.round ((l / t) * 100)%float).

Definition onDocumentLoadProgress (progress : option Progress) (v : View)
  : View :=
  match progress with
  | None => v
  | Some p =>
      if JS.truthy (loaded p) && JS.truthy (total p)
      then match loaded p, total p with
           | Some l, Some t => setLoadProgress (Some (pct l t)) v
           | _, _ => v
           end
      else v
  end.

Definition handleResize (w : float) (v : View) : View := setPageWidth w v.

(** *** Page navigation controls *)

(** [numPages && ...]: the controls exist once [numPages] is a
    non-zero number. *)
Definition controls (v : View) : option Z :=
  match numPages v with
  | Some n => if n =? 0 then None else Some n
  | None => None
  end.

(** A click on Prev; a disabled button does not fire. *)
Definition clickPrev (v : View) : View :=
  match controls v with
  | Some _ =>
      if currentPage v <=? 1 then v
      else onPageChange (JS.max 1 (currentPage v - 1)) v
  | None => v
  end.

(** A click on Next. *)
Definition clickNext (v : View) : View :=
  match controls v with
  | Some n =>
      if n <=? currentPage v then v
      else onPageChange (JS.min n (currentPage v + 1)) v
  | None => v
  end.

(** A sequence of clicks on the two buttons. *)
Inductive Click :=
| Prev
| Next.

Definition click (c : Click) (v : View) : View :=
  match c with
  | Prev => clickPrev v
  | Next => clickNext v
  end.

Fixpoint clicks (cs : list Click) (v : View) : View :=
  match cs with
  | [] => v
  | c :: rest => clicks rest (click c v)
  end.

(** *** What is drawn *)

(** The overlays on screen: none while the URL is being prepared or an
    error is shown. *)
Definition rendered (elements : list Element) (v : View) : list Overlay :=
  match fileUrl v, error v with
  | None, _ => []
  | Some _, Some e =>
      if String.eqb e "" then overlays elements (currentPage v) (pageWidth v)
      else []
  | Some _, None => overlays elements (currentPage v) (pageWidth v)
  end.

(** The progress badge, [loadProgress !== null && ...]: it is outside the
    branch on [error], and is drawn, once the object URL is there, with
    the stored progress. *)
Definition badge (v : View) : option float :=
  match fileUrl v with
  | None => None
  | Some _ => loadProgress v
  end.

(** *** Callbacks as the decode engine delivers them

    Each load is started for one [File]; its callbacks arrive later, and
    the component receives them through the three handlers above. *)
Inductive Callback :=
| LoadSuccess (n : Z)
| LoadError (message : string)
| LoadProgress (progress : option Progress).

Record Delivery := mkDelivery {
  source : File;
  callback : Callback
}.

(** No handler looks at the document a callback comes from. *)
Definition deliver (d : Delivery) (v : View) : View :=
  match callback d with
  | LoadSuccess n => onDocumentLoadSuccess n v
  | LoadError m => onDocumentLoadError m v
  | LoadProgress p => onDocumentLoadProgress p v
  end.

(** *** The object-URL effect

    [URL.createObjectURL] and [URL.revokeObjectURL] act on the
    browser's registry of object URLs, kept here as the log of the
    calls made. *)
Inductive Op :=
| Create (u : Url)
| Revoke (u : Url).

Definition Registry := list Op.

(** The URLs live after a log of calls. *)
Fixpoint live (log : Registry) : gset Url :=
  match log with
  | [] => ∅
  | Create u :: rest => live rest ∪ {[u]}
  | Revoke u :: rest => live rest ∖ {[u]}
  end.

(** Logs grow at the head; every new URL is fresh. *)
Definition createObjectURL (f : File) (log : Registry) : Url * Registry :=
  let u := length log in (u, Create u :: log).

Definition revokeObjectURL (u : Url) (log : Registry) : Registry :=
  Revoke u :: log.

(** The effect body: [if (file) { url = create; setFileUrl(url);
    return () => revoke(url) }]. *)
Definition runEffect (v : View) (log : Registry) : View * Registry :=
  match file v with
  | Some f =>
      let '(u, log') := createObjectURL f log in
      (mkView (file v) (currentPage v) (numPages v) (pageWidth v)
              (loadProgress v) (error v) (Some u) (renderText v) (Some u),
       log')
  | None =>
      (mkView (file v) (currentPage v) (numPages v) (pageWidth v)
              (loadProgress v) (error v) (fileUrl v) (renderText v) None,
       log)
  end.

(** The cleanup the last run of the effect returned, if any. *)
Definition runCleanup (v : View) (log : Registry) : Registry :=
  match cleanup v with
  | Some u => revokeObjectURL u log
  | None => log
  end.

(** Mounting runs the effect once. *)
Definition mount (f : option File) (current : Z) (log : Registry)
  : View * Registry :=
  runEffect (initial f current) log.

(** A render with a new [file] prop: when the dependency [file] has
    changed, the previous cleanup runs, then the effect. *)
Definition setFile (f : option File) (v : View) (log : Registry)
  : View * Registry :=
  if decide (f = file v) then (v, log)
  else
    let v' := mkView f (currentPage v) (numPages v) (pageWidth v)
                     (loadProgress v) (error v) (fileUrl v)
                     (renderText v) (cleanup v) in
    runEffect v' (runCleanup v' log).

(** Unmounting runs the pending cleanup. *)
Definition unmount (v : View) (log : Registry) : Registry :=
  runCleanup v log.

(** A sequence of document swaps. *)
Fixpoint swaps (fs : list (option File)) (v : View) (log : Registry)
  : View * Registry :=
  match fs with
  | [] => (v, log)
  | f :: rest => let '(v', log') := setFile f v log in swaps rest v' log'
  end.

(** A viewer mounted on [f] and taken through the swaps [fs]. *)
Definition running (f : option File) (fs : list (option File))
           (log : Registry) : View * Registry :=
  let '(v, log1) := mount f 1 log in swaps fs v log1.

(** The life of one viewer: mount, swaps, teardown. *)
Definition lifetime (f : option File) (fs : list (option File))
           (log : Registry) : Registry :=
  let '(v, log') := running f fs log in unmount v log'.

(** A viewer mounted on document [f] whose [file] prop then becomes
    document [g]. *)
Definition mounted_then_swapped (f g : File) : View :=
  let '(v, log) := mount (Some f) 1 [] in
  fst (setFile (Some g) v log).

Definition creates (log : Registry) : list Url :=
  omap (fun o => match o with Create u => Some u | Revoke _ => None end) log.

Definition revokes (log : Registry) : list Url :=
  omap (fun o => match o with Revoke u => Some u | Create _ => None end) log.

(** The state of the registry of a viewer whose pending cleanup holds
    [pending]: URLs are fresh, every created URL is either pending or
    revoked once, the pending one is the only live one, and at no
    earlier moment was more than one live. *)
Record Balanced (pending : option Url) (log : Registry) : Prop := {
  bal_fresh : Forall (fun u => (u < length log)%nat) (creates log);
  bal_nodup : NoDup (creates log);
  bal_perm : creates log ≡ₚ option_list pending ++ revokes log;
  bal_live : live log = match pending with Some u => {[u]} | None => ∅ end;
  bal_single : forall k, (size (live (drop k log)) <= 1)%nat
}.

End PdfViewer.

Import PdfViewer.

(** ** More of the viewer *)

(** The [<Page>] element: present once [numPages] is a non-zero number,
    showing [currentPage] at
    [width={pageWidth > 0 ? pageWidth : undefined}]. *)
Definition pageElement (v : View) : option (Z * option float) :=
  match controls v with
  | Some _ =>
      Some (currentPage v,
            if (0 <? pageWidth v)%float then Some (pageWidth v) else None)
  | None => None
  end.

(** [n] occurs in [h] as a contiguous piece. *)
Definition contains (n h : string) : Prop :=
  exists pre post, h = (pre ++ n ++ post)%string.

(** How the object-URL state cells follow the [file] prop: with a file,
    the URL in [fileUrl] is the one the pending cleanup will revoke;
    without one, no cleanup is pending.  A URL in [fileUrl] was created
    by the viewer. *)
Definition InUse (v : View) (log : Registry) : Prop :=
  match file v with
  | Some _ => exists u, fileUrl v = Some u /\ cleanup v = Some u
  | None => cleanup v = None
  end
  /\ (forall u, fileUrl v = Some u -> u ∈ creates log).

(** The number of times the [file] prop, last seen as [prev], becomes
    another, non-null file along [fs]. *)
Fixpoint activations (prev : option File) (fs : list (option File)) : nat :=
  match fs with
  | [] => 0
  | g :: rest =>
      (if decide (g = prev) then 0
       else match g with Some _ => 1 | None => 0 end)
      + activations g rest
  end%nat.

(** ** The host page, the dropzone and the viewer wrapper

    [frontend/app/page.tsx], [frontend/app/components/UploadDropzone.tsx]
    and [frontend/app/components/PdfWrapper.tsx]. *)

Module Host.

(** A browser [File]: its identity, its name as UTF-16 code units, and
    its MIME type. *)
Record FileObject := mkFile {
  ident : File;
  name : list N;
  mime : string
}.

Record Metrics := mkMetrics {
  time_s : float;
  elements_count : Z;
  word_count : Z
}.

Record ExtractionResult := mkResult {
  markdown_output : string;
  elements : list Element;
  metrics : Metrics
}.

(** The [useState] cells of [Home]. *)
Record Home := mkHome {
  file : option FileObject;
  modelId : string;
  results : option ExtractionResult;
  isLoading : bool;
  currentPage : Z;
  error : option string
}.

Definition initial : Home :=
  {| file := None; modelId := "surya"; results := None; isLoading := false;
     currentPage := 1; error := None |}.

Definition setFile (f : option FileObject) (h : Home) : Home :=
  mkHome f (modelId h) (results h) (isLoading h) (currentPage h) (error h).

Definition setModelId (m : string) (h : Home) : Home :=
  mkHome (file h) m (results h) (isLoading h) (currentPage h) (error h).

Definition setResults (r : option ExtractionResult) (h : Home) : Home :=
  mkHome (file h) (modelId h) r (isLoading h) (currentPage h) (error h).

Definition setIsLoading (b : bool) (h : Home) : Home :=
  mkHome (file h) (modelId h) (results h) b (currentPage h) (error h).

Definition setCurrentPage (p : Z) (h : Home) : Home :=
  mkHome (file h) (modelId h) (results h) (isLoading h) p (error h).

Definition setError (e : option string) (h : Home) : Home :=
  mkHome (file h) (modelId h) (results h) (isLoading h) (currentPage h) e.

(** The request of [fetch(url, { method: 'POST', body: formData })]. *)
Record Request := mkRequest {
  url : string;
  body : FileObject
}.

(** [handleFileUpload] up to its [await fetch(...)]: the new state and
    the request sent, if any.  [API_BASE_URL] is the environment variable,
    which may be undefined. *)
Definition handleFileUpload (API_BASE_URL : option string)
           (uploadedFile : FileObject) (h : Home) : Home * option Request :=
  match API_BASE_URL with
  | Some api =>
      if String.eqb api ""
      then (setError (Some "API URL not configured. Check NEXT_PUBLIC_API_BASE_URL.") h,
            None)
      else
        (setIsLoading true
           (setCurrentPage 1
              (setError None (setResults None (setFile (Some uploadedFile) h)))),
         Some (mkRequest (api ++ "/extract/" ++ modelId h) uploadedFile))
  | None =>
      (setError (Some "API URL not configured. Check NEXT_PUBLIC_API_BASE_URL.") h,
       None)
  end.

(** A value caught by [catch (e)]: an [Error] with its message, or any
    other value with its [String(e)]. *)
Inductive Thrown :=
| ErrorObject (message : string)
| OtherValue (text : string).

(** [err.detail] of an error body: falsy, or a truthy value with its
    text as [new Error(detail)] would keep it. *)
Inductive Detail :=
| Falsy
| Truthy (text : string).

(** How the request ends: [fetch], [response.json()] or the read of
    [err.detail] (of a null body) throws; the response is not ok and its
    body is parsed into an object; the response is ok and its body is
    parsed. *)
Inductive Outcome :=
| Threw (e : Thrown)
| NotOk (status : N) (detail : Detail)
| Ok (data : ExtractionResult).

(** [e instanceof Error ? e.message : '...'] *)
Definition catchMessage (e : Thrown) : string :=
  match e with
  | ErrorObject m => m
  | OtherValue _ => "An unknown error occurred during extraction."
  end.

(** [err.detail || `Extraction failed with status ${response.status}.`] *)
Definition failureText (status : N) (detail : Detail) : string :=
  match detail with
  | Truthy t => t
  | Falsy => "Extraction failed with status " ++ pretty status ++ "."
  end.

(** The [catch] block. *)
Definition caught (e : Thrown) (h : Home) : Home :=
  setFile None (setError (Some (catchMessage e)) h).

(** The rest of [handleFileUpload], run when the request ends; the
    [finally] block runs last. *)
Definition handleFileUpload_end (o : Outcome) (h : Home) : Home :=
  setIsLoading false
    match o with
    | Ok data => setResults (Some data) h
    | NotOk status detail => caught (ErrorObject (failureText status detail)) h
    | Threw e => caught e h
    end.

(** The message that an outcome other than success leaves in [error]. *)
Definition uploadFailure (o : Outcome) : option string :=
  match o with
  | Ok _ => None
  | NotOk status detail => Some (failureText status detail)
  | Threw e => Some (catchMessage e)
  end.

(** The "Clear File" button. *)
Definition clearFile (h : Home) : Home := setFile None h.

(** What [Home] returns: the upload screen while [!file || !results],
    else the two panes. *)
Inductive Screen :=
| UploadScreen (loading : bool) (err : option string)
| DualPane (f : FileObject) (r : ExtractionResult) (currentPage : Z).

Definition screen (h : Home) : Screen :=
  match file h, results h with
  | Some f, Some r => DualPane f r (currentPage h)
  | _, _ => UploadScreen (isLoading h) (error h)
  end.

(** [PdfWrapper]: nothing without a file, else the viewer with the same
    props. *)
Definition PdfWrapper (f : option FileObject) (els : list Element) (p : Z)
  : option (FileObject * list Element * Z) :=
  match f with
  | Some f' => Some (f', els, p)
  | None => None
  end.

(** [onDrop] of the dropzone: nothing for an empty drop; an alert for a
    first file that is not a PDF; else the first file is named and handed
    to [onFileUpload]. *)
Inductive Dropped :=
| Nothing
| AlertNotPdf
| Upload (f : FileObject).

Definition onDrop (acceptedFiles : list FileObject) : Dropped :=
  match acceptedFiles with
  | [] => Nothing
  | f :: _ =>
      if String.eqb (mime f) "application/pdf" then Upload f else AlertNotPdf
  end.

(** The [fileName] cell of the dropzone after a drop. *)
Definition fileName_after (d : Dropped) (fileName : list N) : list N :=
  match d with
  | Upload f => name f
  | _ => fileName
  end.

(** A drop on the dropzone of [Home], where [onFileUpload] is
    [handleFileUpload]. *)
Definition drop (API_BASE_URL : option string)
           (acceptedFiles : list FileObject) (h : Home)
  : Home * option Request :=
  match onDrop acceptedFiles with
  | Upload f => handleFileUpload API_BASE_URL f h
  | _ => (h, None)
  end.

End Host.

(** ** The markdown pane

    [frontend/app/components/MarkdownOutput.tsx]. *)

Module MarkdownOutput.

(** The code units matched by [\s]: the white space and line terminator
    characters of ECMAScript. *)
Definition is_space (c : N) : bool :=
  bool_decide
    (c ∈ [9; 10; 11; 12; 13; 32; 160; 5760; 8232; 8233; 8239; 8287; 12288;
          65279]%N)
  || ((8192 <=? c) && (c <=? 8202))%N.

(** The code units of a literal. *)
Definition units (s : string) : list N :=
  map N_of_ascii (list_ascii_of_string s).

(** [s.replace(/\s+/g, '_')]: every maximal run of white space becomes
    one underscore. [in_run] tells that the previous unit was white
    space. *)
Fixpoint squash (in_run : bool) (s : list N) : list N :=
  match s with
  | [] => []
  | c :: rest =>
      if is_space c
      then if in_run then squash true rest else 95%N :: squash true rest
      else c :: squash false rest
  end.

Definition replace_spaces (s : list N) : list N := squash false s.

(** [`${(file.name || 'extracted').replace(/\s+/g, '_')}.md`] *)
Definition downloadName (name : list N) : list N :=
  replace_spaces (match name with [] => units "extracted" | _ => name end)
  ++ units ".md".

(** The characters matched by [\w]. *)
Definition is_word (a : ascii) : bool :=
  let n := N_of_ascii a in
  ((48 <=? n) && (n <=? 57) || (65 <=? n) && (n <=? 90)
   || (97 <=? n) && (n <=? 122) || (n =? 95))%N.

(** The longest prefix made of word characters. *)
Fixpoint word_prefix (s : string) : string :=
  match s with
  | EmptyString => EmptyString
  | String a rest => if is_word a then String a (word_prefix rest)
                     else EmptyString
  end.

(** [s] without its first [n] characters. *)
Fixpoint skip (n : nat) (s : string) : string :=
  match n, s with
  | O, _ => s
  | S n', String _ rest => skip n' rest
  | S _, EmptyString => EmptyString
  end.

(** The group 1 of [/language-(\w+)/.exec(s)]: at the first position
    where "language-" is followed by a word character, the longest run of
    word characters after it. *)
Fixpoint language (s : string) : option string :=
  let here :=
    if String.prefix "language-" s
    then match word_prefix (skip 9 s) with
         | EmptyString => None
         | w => Some w
         end
    else None in
  match here with
  | Some w => Some w
  | None => match s with
            | EmptyString => None
            | String _ rest => language rest
            end
  end.

(** [s.replace(/\n$/, '')]: a line feed at the very end is removed. *)
Fixpoint chomp (s : string) : string :=
  match s with
  | EmptyString => EmptyString
  | String a EmptyString =>
      if Ascii.eqb a "010" then EmptyString else String a EmptyString
  | String a rest => String a (chomp rest)
  end.

(** What the [code] renderer returns. *)
Inductive CodeView :=
| Highlighter (lang : string) (text : string)
| PlainCode (className : option string) (children : string).

(** [code: ({ inline, className, children }) => ...] *)
Definition code (inline : bool) (className : option string)
           (children : string) : CodeView :=
  match language (default "" className) with
  | Some lang =>
      if inline then PlainCode className children
      else Highlighter lang (chomp children)
  | None => PlainCode className children
  end.

(** What [handleDownload] does that can be seen from outside. *)
Inductive Effect :=
| Alert (text : string)
| SaveAs (u : Url) (download : list N).


(** How the download request ends: something is thrown; the response is
    not ok and has the text [err]; the response is ok. *)
Inductive Outcome :=
| Threw (e : Host.Thrown)
| NotOk (err : string)
| Ok (blob : File).

(** ['Download failed: ' + (e instanceof Error ? e.message : String(e))] *)
Definition failedAlert (e : Host.Thrown) : Effect :=
  Alert ("Download failed: "
         ++ match e with
            | Host.ErrorObject m => m
            | Host.OtherValue t => t
            end).

(** The rest of [handleDownload] for the file [f]: on success an object
    URL is created for the blob, offered under the download name, and
    revoked. *)
Definition handleDownload_end (f : Host.FileObject) (o : Outcome)
           (log : Registry) : Effect * Registry :=
  match o with
  | Ok blob =>
      let '(u, log') := createObjectURL blob log in
      (SaveAs u (downloadName (Host.name f)), revokeObjectURL u log')
  | NotOk err =>
      (failedAlert
         (Host.ErrorObject (if String.eqb err "" then "Download failed" else err)),
       log)
  | Threw e => (failedAlert e, log)
  end.

End MarkdownOutput.

(** ** The page as a whole

    [Home] with the viewer it mounts and the registry of object URLs
    they share with the markdown pane. *)

Module App.

Record App := mkApp {
  home : Host.Home;
  viewer : option View;
  registry : Registry
}.

Definition start : App := mkApp Host.initial None [].

(** After [Home] has rendered with the state [h]: the viewer is mounted
    when the two panes appear, gets its new props while they stay, and is
    unmounted when the upload screen comes back. *)
Definition commit (h : Host.Home) (a : App) : App :=
  match Host.screen h with
  | Host.DualPane f r p =>
      match Host.PdfWrapper (Some f) (Host.elements r) p, viewer a with
      | Some (f', _, p'), None =>
          let '(v, log) := mount (Some (Host.ident f')) p' (registry a) in
          mkApp h (Some v) log
      | Some (f', _, p'), Some v =>
          let '(v', log) :=
            setFile (Some (Host.ident f')) (onPageChange p' v) (registry a) in
          mkApp h (Some v') log
      | None, Some v => mkApp h None (unmount v (registry a))
      | None, None => mkApp h None (registry a)
      end
  | Host.UploadScreen _ _ =>
      match viewer a with
      | Some v => mkApp h None (unmount v (registry a))
      | None => mkApp h None (registry a)
      end
  end.

(** What can happen to the page.  The dropzone and the model selector
    exist on the upload screen only; the "Clear File" button, the viewer
    and the markdown pane on the two panes only.  The end of an upload,
    and the end of the download of a file [f], are accepted at any time
    and on any screen: the page keeps no record of the requests in
    flight. *)
Inductive Event :=
| Drop (files : list Host.FileObject)
| SelectModel (m : string)
| UploadEnds (o : Host.Outcome)
| ClearFile
| Callback (d : Delivery)
| Press (c : Click)
| Resize (w : float)
| DownloadEnds (f : Host.FileObject) (o : MarkdownOutput.Outcome).

(** A viewer handler has run: the page it asked for through
    [onPageChange] goes to [Home]. *)
Definition viewerDid (v' : View) (a : App) : App :=
  commit (Host.setCurrentPage (PdfViewer.currentPage v') (home a))
         (mkApp (home a) (Some v') (registry a)).

Definition step (API_BASE_URL : option string) (e : Event) (a : App) : App :=
  match e, Host.screen (home a), viewer a with
  | Drop files, Host.UploadScreen _ _, _ =>
      commit (Host.drop API_BASE_URL files (home a)).1 a
  | SelectModel m, Host.UploadScreen _ _, _ =>
      commit (Host.setModelId m (home a)) a
  | UploadEnds o, _, _ => commit (Host.handleFileUpload_end o (home a)) a
  | ClearFile, Host.DualPane _ _ _, _ => commit (Host.clearFile (home a)) a
  | Callback d, Host.DualPane _ _ _, Some v => viewerDid (deliver d v) a
  | Press c, Host.DualPane _ _ _, Some v => viewerDid (click c v) a
  | Resize w, Host.DualPane _ _ _, Some v =>
      mkApp (home a) (Some (handleResize w v)) (registry a)
  | DownloadEnds f o, _, _ =>
      mkApp (home a) (viewer a)
            (MarkdownOutput.handleDownload_end f o (registry a)).2
  | _, _, _ => a
  end.

Fixpoint run (API_BASE_URL : option string) (es : list Event) (a : App) : App :=
  match es with
  | [] => a
  | e :: rest => run API_BASE_URL rest (step API_BASE_URL e a)
  end.

(** The registry when [pending] is the URL still to be revoked: URLs are
    fresh, every created URL is either pending or revoked once, and the
    pending one is the only live one. *)
Record Settled (pending : option Url) (log : Registry) : Prop := {
  set_fresh : Forall (fun u => (u < length log)%nat) (creates log);
  set_nodup : NoDup (creates log);
  set_perm : creates log ≡ₚ option_list pending ++ revokes log;
  set_live : live log = match pending with Some u => {[u]} | None => ∅ end
}.



End App.

(** ** Projection of bounding boxes *)

Section Projection.

Implicit Types (w c : float) (b : list float).

Lemma denormalize_four w (x0 y0 x1 y1 : float) :
  denormalize w [x0; y0; x1; y1]
  = [x0 * w / 1000; y0 * w / 1000; x1 * w / 1000; y1 * w / 1000]%float.
Proof. reflexivity. Qed.

Lemma denormalize_lookup w b (i : nat) :
  denormalize w b !! i = (fun c => c * w / 1000)%float <$> b !! i.
Proof.
  revert i. induction b as [|c b IH]; intros [|i]; simpl; auto.
Qed.

Lemma denormalize_length w b : length (denormalize w b) = length b.
Proof. apply length_map. Qed.

End Projection.

(** At the width 800 the coordinate 3 is projected to the double just
    below 12/5, which is the double nearest to 12/5; multiplying 3 by the
    double [800 / 1000] gives the double just above. *)
Example product_then_quotient :
  ((3 * 800) / 1000 <? 3 * (800 / 1000))%float = true
  /\ Prim2SF (3 * 800 / 1000)%float = S754_finite false 5404319552844595 (-51)
  /\ Prim2SF (3 * (800 / 1000))%float = S754_finite false 5404319552844596 (-51)
  /\ (JS.real false 5404319552844595 (-51) < 12 # 5)%Q
  /\ (12 # 5 < JS.real false 5404319552844596 (-51))%Q
  /\ ((12 # 5) - JS.real false 5404319552844595 (-51)
      < JS.real false 5404319552844596 (-51) - (12 # 5))%Q.
Proof. repeat split. Qed.

(** C1, as stated, fails: for the box [3,3,3,3] at the width 800 the
    projection is not the box of the components multiplied by
    [800 / 1000]: the program divides the rounded product [3 * 800] by
    1000, which is a double below the double [3 * (800 / 1000)]. *)
Lemma product_is_rounded_before_division :
  ~ (denormalize 800 [3; 3; 3; 3]%float
     = map (fun c => c * (800 / 1000))%float [3; 3; 3; 3]%float).
Proof.
  intros H. apply (f_equal (fun l => Prim2SF <$> head l)) in H.
  vm_compute in H. discriminate H.
Qed.

(** C1, amended. For every bounding box and every width the projection
    gives, at each position, the double [(c * w) / 1000] of the
    component [c] at that position, product first and quotient second,
    from that component and the width alone; the box keeps its length,
    and a box of four components gives the four doubles.  This is not in
    general [c] multiplied by [w / 1000].  The box [100,100,900,200] at the
    width 800 gives exactly the pixel box [80,80,720,160], and its overlay
    is at left 80 and top 80, 640 wide and 80 high. *)
Theorem project_each_component (w : float) (b : list float) :
  (forall i, denormalize w b !! i = (fun c => c * w / 1000)%float <$> b !! i)
  /\ length (denormalize w b) = length b
  /\ (forall x0 y0 x1 y1,
         b = [x0; y0; x1; y1] ->
         denormalize w b
         = [x0 * w / 1000; y0 * w / 1000; x1 * w / 1000; y1 * w / 1000]%float
         /\ forall i ty pg,
             left (overlay w i (mkElement ty b pg)) = Some (x0 * w / 1000)%float
             /\ top (overlay w i (mkElement ty b pg)) = Some (y0 * w / 1000)%float
             /\ width (overlay w i (mkElement ty b pg))
                = Some (x1 * w / 1000 - x0 * w / 1000)%float
             /\ height (overlay w i (mkElement ty b pg))
                = Some (y1 * w / 1000 - y0 * w / 1000)%float)
  /\ denormalize 800 [100; 100; 900; 200]%float = [80; 80; 720; 160]%float
  /\ (let o := overlay 800 0 (mkElement "title" [100; 100; 900; 200]%float 1) in
      left o = Some 80%float /\ top o = Some 80%float
      /\ width o = Some 640%float /\ height o = Some 80%float).
Proof.
  split; [intros i; apply denormalize_lookup|].
  split; [apply denormalize_length|].
  split; [|split; [reflexivity | repeat split]].
  intros x0 y0 x1 y1 ->. split; [reflexivity|].
  intros i ty pg. repeat split.
Qed.

Lemma project_each_component_witness :
  denormalize 800 [3; 0; 1000; 10]%float
  = [3 * 800 / 1000; 0 * 800 / 1000; 1000 * 800 / 1000; 10 * 800 / 1000]%float
  /\ width (overlay 800 0 (mkElement "title" [3; 0; 1000; 10]%float 1))
     = Some (1000 * 800 / 1000 - 3 * 800 / 1000)%float.
Proof.
  pose proof (project_each_component 800 [3; 0; 1000; 10]%float)
    as (_ & _ & H & _).
  destruct (H 3 0 1000 10 eq_refl)%float as [Hbox Hov].
  split; [exact Hbox | apply (Hov 0%nat "title"%string 1)].
Defined.

(** ** Selection of the annotations of a page *)

Section ForPage.

Implicit Types (l r : list Element) (p : Z).

Lemma annotations_cons e l p :
  annotations (e :: l) p
  = if decide (page e = p) then e :: annotations l p else annotations l p.
Proof. reflexivity. Qed.

Lemma annotations_sublist l p : annotations l p `sublist_of` l.
Proof. apply sublist_filter. Qed.

Lemma annotations_on_page l p : Forall (fun e => page e = p) (annotations l p).
Proof.
  apply Forall_forall. intros e He.
  apply list_elem_of_filter in He. tauto.
Qed.

(** Any subsequence made of annotations of page [p] only is already a
    subsequence of the selection. *)
Lemma annotations_greatest l r p :
  r `sublist_of` l -> Forall (fun e => page e = p) r ->
  r `sublist_of` annotations l p.
Proof.
  induction 1 as [|e r l Hsub IH|e r l Hsub IH]; intros Hall.
  - constructor.
  - apply Forall_cons in Hall as [He Hall].
    rewrite annotations_cons. rewrite decide_True by exact He.
    constructor. auto.
  - rewrite annotations_cons. destruct (decide (page e = p)).
    + constructor. auto.
    + auto.
Qed.

(** The three properties determine the selection. *)
Lemma annotations_unique l r p :
  r `sublist_of` l -> Forall (fun e => page e = p) r ->
  (forall r', r' `sublist_of` l -> Forall (fun e => page e = p) r' ->
              r' `sublist_of` r) ->
  r = annotations l p.
Proof.
  intros Hsub Hall Hmax. apply (anti_symm sublist).
  - apply annotations_greatest; assumption.
  - apply Hmax; [apply annotations_sublist | apply annotations_on_page].
Qed.

Lemma annotations_none l p :
  Forall (fun e => page e <> p) l -> annotations l p = [].
Proof.
  induction 1 as [|e l He Hall IH]; [reflexivity|].
  rewrite annotations_cons. now rewrite decide_False.
Qed.

End ForPage.

(** C2. The selection for page [p] is the subsequence of the annotations
    whose page is [p], in their original order: it is a subsequence of the
    input, all of it is on page [p], every subsequence of the input that
    is all on page [p] is inside it, it is the only list with these three
    properties, and it is empty for the empty list and for a list with no
    annotation on page [p]. *)
Theorem annotations_is_the_page_subsequence (elements : list Element) (p : Z) :
  annotations elements p `sublist_of` elements
  /\ Forall (fun e => page e = p) (annotations elements p)
  /\ (forall r, r `sublist_of` elements -> Forall (fun e => page e = p) r ->
                r `sublist_of` annotations elements p)
  /\ (forall r, r `sublist_of` elements -> Forall (fun e => page e = p) r ->
                (forall r', r' `sublist_of` elements ->
                            Forall (fun e => page e = p) r' ->
                            r' `sublist_of` r) ->
                r = annotations elements p)
  /\ (forall e, e ∈ annotations elements p <-> e ∈ elements /\ page e = p)
  /\ annotations [] p = []
  /\ (Forall (fun e => page e <> p) elements -> annotations elements p = []).
Proof.
  split; [apply annotations_sublist|].
  split; [apply annotations_on_page|].
  split; [intros r; apply annotations_greatest|].
  split; [intros r; apply annotations_unique|].
  split; [|split; [reflexivity | apply annotations_none]].
  intros e. unfold annotations. rewrite list_elem_of_filter. tauto.
Qed.

Lemma annotations_is_the_page_subsequence_witness :
  annotations [mkElement "title" [] 1; mkElement "table" [] 3] 2 = []
  /\ [mkElement "title" [] 1] `sublist_of`
       annotations [mkElement "title" [] 1; mkElement "table" [] 2] 1.
Proof.
  split.
  - apply (annotations_is_the_page_subsequence
             [mkElement "title" [] 1; mkElement "table" [] 3] 2).
    repeat constructor; discriminate.
  - apply (annotations_is_the_page_subsequence
             [mkElement "title" [] 1; mkElement "table" [] 2] 1).
    + repeat constructor.
    + repeat constructor.
Defined.

Example annotations_order :
  annotations [mkElement "a" [] 2; mkElement "b" [] 1; mkElement "c" [] 2;
               mkElement "d" [] 3; mkElement "e" [] 2] 2
  = [mkElement "a" [] 2; mkElement "c" [] 2; mkElement "e" [] 2].
Proof. reflexivity. Qed.

(** ** Page navigation *)

Section Navigation.

Variables (v : View) (p : Z).
Hypothesis known : numPages v = Some p.
Hypothesis positive : 1 <= p.

Lemma controls_known : controls v = Some p.
Proof.
  unfold controls. rewrite known.
  destruct (Z.eqb_spec p 0); [lia | reflexivity].
Qed.

Lemma clickPrev_page :
  1 <= currentPage v ->
  currentPage (clickPrev v) = Z.max 1 (currentPage v - 1).
Proof.
  intros Hlo. unfold clickPrev. rewrite controls_known.
  destruct (Z.leb_spec (currentPage v) 1); simpl; unfold JS.max; lia.
Qed.

Lemma clickNext_page :
  currentPage v <= p ->
  currentPage (clickNext v) = Z.min p (currentPage v + 1).
Proof.
  intros Hhi. unfold clickNext. rewrite controls_known.
  destruct (Z.leb_spec p (currentPage v)); simpl; unfold JS.min; lia.
Qed.

Lemma clickPrev_first : currentPage v = 1 -> clickPrev v = v.
Proof.
  intros H1. unfold clickPrev. rewrite controls_known, H1. reflexivity.
Qed.

Lemma clickNext_last : currentPage v = p -> clickNext v = v.
Proof.
  intros Hp. unfold clickNext. rewrite controls_known, Hp.
  now rewrite Z.leb_refl.
Qed.

Lemma click_numPages :
  numPages (clickPrev v) = Some p /\ numPages (clickNext v) = Some p.
Proof.
  unfold clickPrev, clickNext. rewrite controls_known.
  destruct (currentPage v <=? 1), (p <=? currentPage v); simpl; auto.
Qed.

End Navigation.

Lemma clicks_in_range (cs : list Click) (v : View) (p : Z) :
  numPages v = Some p -> 1 <= p -> 1 <= currentPage v <= p ->
  numPages (clicks cs v) = Some p /\ 1 <= currentPage (clicks cs v) <= p.
Proof.
  revert v. induction cs as [|c cs IH]; intros v Hn Hp [Hlo Hhi]; simpl.
  - auto.
  - destruct (click_numPages v p Hn Hp) as [HnP HnN].
    destruct c; simpl; apply IH; trivial.
    + rewrite (clickPrev_page v p Hn Hp Hlo). lia.
    + rewrite (clickNext_page v p Hn Hp Hhi). lia.
Qed.

Example clicks_walk :
  map (fun cs => currentPage (clicks cs (onDocumentLoadSuccess 3 (initial (Some 0%nat) 1))))
      [[Prev]; [Next]; [Next; Next]; [Next; Next; Next]; [Next; Next; Next; Prev]]
  = [1; 2; 3; 3; 2].
Proof. reflexivity. Qed.

(** C6. With the page count [p >= 1] known and the current page in
    [1, p], Prev moves to [max 1 (currentPage - 1)] and Next to
    [min p (currentPage + 1)], both inside [1, p]; Next on the last page
    and Prev on the first leave the view as it is; and after any sequence
    of clicks the current page is still in [1, p]. *)
Theorem navigation_stays_in_range (v : View) (p : Z) :
  numPages v = Some p -> 1 <= p -> 1 <= currentPage v <= p ->
  currentPage (clickPrev v) = Z.max 1 (currentPage v - 1)
  /\ 1 <= currentPage (clickPrev v) <= p
  /\ currentPage (clickNext v) = Z.min p (currentPage v + 1)
  /\ 1 <= currentPage (clickNext v) <= p
  /\ (currentPage v = p -> clickNext v = v)
  /\ (currentPage v = 1 -> clickPrev v = v)
  /\ (forall cs, 1 <= currentPage (clicks cs v) <= p).
Proof.
  intros Hn Hp [Hlo Hhi].
  pose proof (clickPrev_page v p Hn Hp Hlo) as HP.
  pose proof (clickNext_page v p Hn Hp Hhi) as HN.
  split; [exact HP|]. split; [rewrite HP; lia|].
  split; [exact HN|]. split; [rewrite HN; lia|].
  split; [apply (clickNext_last v p Hn Hp)|].
  split; [apply (clickPrev_first v p Hn Hp)|].
  intros cs. apply (clicks_in_range cs v p Hn Hp). lia.
Qed.

Lemma navigation_stays_in_range_witness :
  let v := onPageChange 3 (onDocumentLoadSuccess 3 (initial (Some 0%nat) 1)) in
  currentPage (clickPrev v) = 2 /\ clickNext v = v.
Proof.
  pose proof (navigation_stays_in_range
                (onPageChange 3 (onDocumentLoadSuccess 3 (initial (Some 0%nat) 1))) 3
                eq_refl ltac:(lia) ltac:(simpl; lia)) as H.
  split; [apply H | apply H; reflexivity].
Defined.

(** ** Classification of load failures *)

Section Failures.

Lemma errorKind_worker : errorKind WORKER_MESSAGE = WorkerUnavailable.
Proof. reflexivity. Qed.

Lemma errorKind_corrupt : errorKind CORRUPT_MESSAGE = CorruptDocument.
Proof. reflexivity. Qed.

(** A text that starts with "Failed" is neither of the two fixed
    texts. *)
Lemma errorKind_failed (m : string) :
  errorKind ("Failed to load PDF file: " ++ m) = Unknown.
Proof.
  unfold errorKind.
  destruct (decide _) as [E|_]; [discriminate E|].
  destruct (decide _) as [E|_]; [discriminate E|].
  reflexivity.
Qed.

Lemma errorMessage_worker (m : string) :
  JS.includes "Worker" m || JS.includes "worker" m = true ->
  errorMessage m = WORKER_MESSAGE.
Proof. intros H. unfold errorMessage. now rewrite H. Qed.

Lemma errorMessage_corrupt (m : string) :
  JS.includes "Worker" m || JS.includes "worker" m = false ->
  JS.includes "Invalid" m || JS.includes "corrupted" m = true ->
  errorMessage m = CORRUPT_MESSAGE.
Proof. intros H1 H2. unfold errorMessage. now rewrite H1, H2. Qed.

Lemma errorMessage_other (m : string) :
  JS.includes "Worker" m || JS.includes "worker" m = false ->
  JS.includes "Invalid" m || JS.includes "corrupted" m = false ->
  errorMessage m = ("Failed to load PDF file: " ++ m)%string.
Proof. intros H1 H2. unfold errorMessage. now rewrite H1, H2. Qed.

End Failures.

Example classify_worker :
  errorMessage "Setting up fake worker failed" = WORKER_MESSAGE.
Proof. reflexivity. Qed.

Example classify_both :
  errorKind (errorMessage "worker reported corrupted data") = WorkerUnavailable.
Proof. reflexivity. Qed.

(** C4, as stated, fails: the failure message "Invalid PDF structure."
    contains neither "worker" nor "corrupted", yet it is not classified
    as Unknown and the stored text does not keep it. *)
Lemma invalid_message_is_not_unknown :
  ~ (JS.includes "worker" "Invalid PDF structure." = false ->
     JS.includes "corrupted" "Invalid PDF structure." = false ->
     errorKind (errorMessage "Invalid PDF structure.") = Unknown
     /\ JS.includes "Invalid PDF structure."
                    (errorMessage "Invalid PDF structure.") = true).
Proof. intros H. destruct (H eq_refl eq_refl) as [E _]. discriminate E. Qed.

(** C4, amended. The stored error is classified from the failure
    message in this order: a message containing "Worker" or "worker" is
    WorkerUnavailable; otherwise a message containing "Invalid" or
    "corrupted" is CorruptDocument; any other message is Unknown, and the
    stored text is "Failed to load PDF file: " followed by the raw
    message. *)
Theorem load_error_classification (m : string) (v : View) :
  error (onDocumentLoadError m v) = Some (errorMessage m)
  /\ (JS.includes "Worker" m || JS.includes "worker" m = true ->
      errorMessage m = WORKER_MESSAGE
      /\ errorKind (errorMessage m) = WorkerUnavailable)
  /\ (JS.includes "Worker" m || JS.includes "worker" m = false ->
      JS.includes "Invalid" m || JS.includes "corrupted" m = true ->
      errorMessage m = CORRUPT_MESSAGE
      /\ errorKind (errorMessage m) = CorruptDocument)
  /\ (JS.includes "Worker" m || JS.includes "worker" m = false ->
      JS.includes "Invalid" m || JS.includes "corrupted" m = false ->
      errorMessage m = ("Failed to load PDF file: " ++ m)%string
      /\ errorKind (errorMessage m) = Unknown).
Proof.
  split; [reflexivity|].
  split; [|split].
  - intros H. rewrite (errorMessage_worker m H). auto using errorKind_worker.
  - intros H1 H2. rewrite (errorMessage_corrupt m H1 H2).
    auto using errorKind_corrupt.
  - intros H1 H2. rewrite (errorMessage_other m H1 H2).
    auto using errorKind_failed.
Qed.

Lemma load_error_classification_witness :
  errorKind (errorMessage "Setting up fake worker failed") = WorkerUnavailable
  /\ errorKind (errorMessage "file is corrupted") = CorruptDocument
  /\ errorMessage "Unexpected server response"
     = "Failed to load PDF file: Unexpected server response"%string.
Proof.
  split; [|split].
  - apply (load_error_classification "Setting up fake worker failed"
                                     (initial None 1)).
    reflexivity.
  - apply (load_error_classification "file is corrupted" (initial None 1));
      reflexivity.
  - apply (load_error_classification "Unexpected server response"
                                     (initial None 1)); reflexivity.
Defined.

(** ** Progress reports *)

Section ProgressReports.

Implicit Types (l t r x : float) (v : View).

Lemma min_number_le_100 r : (100 <? JS.min_number 100 r)%float = false.
Proof.
  unfold JS.min_number. change (PrimFloat.is_nan 100) with false.
  cbn [orb]. destruct (PrimFloat.is_nan r); [reflexivity|].
  destruct (100 <? r)%float eqn:E; [reflexivity|].
  destruct (r <? 100)%float; [exact E|].
  change (PrimFloat.get_sign 100) with false. exact E.
Qed.

Lemma pct_le_100 l t : (100 <? pct l t)%float = false.
Proof. apply min_number_le_100. Qed.

Lemma truthy_Some x :
  JS.truthy (Some x) = true
  <-> (x =? 0)%float = false /\ PrimFloat.is_nan x = false.
Proof.
  unfold JS.truthy. rewrite negb_true_iff, orb_false_iff. reflexivity.
Qed.

Lemma truthy_falsy x :
  (x =? 0)%float = true \/ PrimFloat.is_nan x = true ->
  JS.truthy (Some x) = false.
Proof.
  unfold JS.truthy. intros [-> | ->]; [reflexivity|].
  now rewrite orb_true_r.
Qed.

Lemma progress_applied v l t :
  JS.truthy (Some l) = true -> JS.truthy (Some t) = true ->
  onDocumentLoadProgress (Some (mkProgress (Some l) (Some t))) v
  = setLoadProgress (Some (pct l t)) v.
Proof.
  intros Hl Ht. unfold onDocumentLoadProgress.
  cbn [loaded total]. now rewrite Hl, Ht.
Qed.

Lemma progress_ignored v (p : Progress) :
  JS.truthy (loaded p) && JS.truthy (total p) = false ->
  onDocumentLoadProgress (Some p) v = v.
Proof. intros H. unfold onDocumentLoadProgress. now rewrite H. Qed.

(** [Math.round] is rounding to the nearest integer, a half going up: for
    a double with a fractional part, the result is the double of the
    integer [k] with [k - 1/2 <= x < k + 1/2]. *)
Lemma round_is_nearest_half_up x (s : bool) (m : positive) (e : Z) :
  Prim2SF x = S754_finite s m e -> e < 0 ->
  exists k : Z,
    (inject_Z k - (1 # 2) <= JS.real s m e)%Q
    /\ (JS.real s m e < inject_Z k + (1 # 2))%Q
    /\ JS.round x = if (k =? 0) && s then (- 0)%float else JS.of_integer k.
Proof.
  intros Hx He. exists (Qfloor (JS.real s m e + (1 # 2))).
  pose proof (Qfloor_le (JS.real s m e + (1 # 2))) as Hlo.
  pose proof (Qlt_floor (JS.real s m e + (1 # 2))) as Hhi.
  rewrite inject_Z_plus in Hhi.
  split; [|split].
  - apply (Qplus_le_l _ _ (1 # 2)). ring_simplify. ring_simplify in Hlo.
    exact Hlo.
  - apply (Qplus_lt_l _ _ (1 # 2)). ring_simplify. ring_simplify in Hhi.
    exact Hhi.
  - unfold JS.round. rewrite Hx.
    destruct (Z.leb_spec 0 e); [lia | reflexivity].
Qed.

End ProgressReports.

Example rounding :
  (JS.round (1 / 2) = 1 /\ JS.round (3 / 2) = 2 /\ JS.round (5 / 2) = 3
   /\ JS.round (- (5 / 2)) = - (2) /\ JS.round (- (1 / 2)) = - 0
   /\ JS.round (PrimFloat.next_down (1 / 2)) = 0
   /\ JS.round (115 / 2) = 58 /\ JS.round (23 / 40 * 100) = 57
   /\ JS.round PrimFloat.nan = PrimFloat.nan
   /\ JS.round PrimFloat.infinity = PrimFloat.infinity)%float.
Proof. repeat split. Qed.

Example progress_rounds_the_double :
  loadProgress (onDocumentLoadProgress
                  (Some (mkProgress (Some 23%float) (Some 40%float)))
                  (initial None 1))
  = Some 57%float
  /\ (23 / 40 * 100 <? 115 / 2)%float = true.
Proof. split; reflexivity. Qed.

Example progress_half :
  loadProgress (onDocumentLoadProgress
                  (Some (mkProgress (Some 1%float) (Some 200%float))) (initial None 1))
  = Some 1%float.
Proof. reflexivity. Qed.

Example progress_capped :
  loadProgress (onDocumentLoadProgress
                  (Some (mkProgress (Some 300%float) (Some 200%float))) (initial None 1))
  = Some 100%float.
Proof. reflexivity. Qed.

Example progress_negative_total :
  loadProgress (onDocumentLoadProgress
                  (Some (mkProgress (Some 50%float) (Some (-100)%float))) (initial None 1))
  = Some (-50)%float.
Proof. reflexivity. Qed.

(** C5, as stated, fails: for the report with [loaded = 0] and
    [total = 100], both present and [total > 0], the stored progress does
    not become [min(100, round(0/100*100))]; it stays unknown. *)
Lemma zero_loaded_report_is_ignored :
  ~ (loadProgress
       (onDocumentLoadProgress (Some (mkProgress (Some 0%float) (Some 100%float)))
                               (initial (Some 0%nat) 1))
     = Some (JS.min_number 100 (JS.round (0 / 100 * 100)%float))).
Proof. vm_compute. discriminate. Qed.

(** C5, amended. If the loaded and total fields of a progress report are
    both present and both truthy (neither zero nor NaN), the stored
    progress becomes [Math.min(100, Math.round((loaded / total) * 100))]
    as the doubles give it, quotient and product being rounded before
    [Math.round]; the stored value is never above 100.  Otherwise (no
    report, a field absent, zero or NaN) the state is left as it is; in
    particular a report with [loaded = 0] leaves the progress unchanged.
    The rounding is to the nearest integer, a half going up, of the double
    [(loaded / total) * 100]: the report 23 of 40 stores 57, that double
    being below 57.5, the report 1 of 200 stores 1 and the report 300 of
    200 stores 100. *)
Theorem progress_report_rule (v : View) (p : Progress) :
  (forall l t, loaded p = Some l -> total p = Some t ->
               (l =? 0)%float = false -> PrimFloat.is_nan l = false ->
               (t =? 0)%float = false -> PrimFloat.is_nan t = false ->
               loadProgress (onDocumentLoadProgress (Some p) v)
               = Some (JS.min_number 100 (JS.round (l / t * 100)%float))
               /\ (100 <? JS.min_number 100 (JS.round (l / t * 100)))%float
                  = false)
  /\ (loaded p = None \/ total p = None
      \/ (exists l, loaded p = Some l
                    /\ ((l =? 0)%float = true \/ PrimFloat.is_nan l = true))
      \/ (exists t, total p = Some t
                    /\ ((t =? 0)%float = true \/ PrimFloat.is_nan t = true)) ->
      onDocumentLoadProgress (Some p) v = v)
  /\ onDocumentLoadProgress None v = v
  /\ (forall l t s m e,
         Prim2SF (l / t * 100)%float = S754_finite s m e -> e < 0 ->
         exists k : Z,
           (inject_Z k - (1 # 2) <= JS.real s m e)%Q
           /\ (JS.real s m e < inject_Z k + (1 # 2))%Q
           /\ JS.round (l / t * 100)%float
              = if (k =? 0) && s then (- 0)%float else JS.of_integer k)
  /\ loadProgress
       (onDocumentLoadProgress (Some (mkProgress (Some 23%float) (Some 40%float))) v)
     = Some 57%float
  /\ loadProgress
       (onDocumentLoadProgress (Some (mkProgress (Some 1%float) (Some 200%float))) v)
     = Some 1%float
  /\ loadProgress
       (onDocumentLoadProgress (Some (mkProgress (Some 300%float) (Some 200%float))) v)
     = Some 100%float.
Proof.
  split; [|split; [|split; [reflexivity|split; [|repeat split]]]].
  3: { intros l t s m e Hx He.
       exact (round_is_nearest_half_up (l / t * 100)%float s m e Hx He). }
  - intros l t Hl Ht Zl Nl Zt Nt. destruct p as [pl pt]. simpl in Hl, Ht. subst.
    rewrite (progress_applied v l t)
      by (apply truthy_Some; split; assumption).
    split; [reflexivity|]. apply (pct_le_100 l t).
  - intros H. apply progress_ignored.
    destruct H as [H|[H|[(l & H & E)|(t & H & E)]]]; rewrite H.
    + reflexivity.
    + apply andb_false_r.
    + now rewrite (truthy_falsy l E).
    + rewrite (truthy_falsy t E). apply andb_false_r.
Qed.

Lemma progress_report_rule_witness :
  loadProgress
    (onDocumentLoadProgress (Some (mkProgress (Some 23%float) (Some 40%float)))
                            (initial None 1))
  = Some 57%float
  /\ onDocumentLoadProgress (Some (mkProgress (Some 0%float) (Some 100%float)))
                            (initial None 1)
     = initial None 1.
Proof.
  split.
  - apply (proj1 (progress_report_rule
                    (initial None 1) (mkProgress (Some 23%float) (Some 40%float)))
                 23%float 40%float);
      reflexivity.
  - apply (proj1 (proj2 (progress_report_rule
                           (initial None 1)
                           (mkProgress (Some 0%float) (Some 100%float))))).
    right. right. left. exists 0%float. split; [reflexivity|].
    left. reflexivity.
Defined.

(** ** Inverted bounding boxes *)

Section Inverted.

Lemma overlays_positive (els : list Element) (p : Z) (w : float) :
  (0 <? w)%float = true ->
  overlays els p w = imap (overlay w) (annotations els p).
Proof. intros Hw. unfold overlays. now rewrite Hw. Qed.

Lemma overlays_single (el : Element) (w : float) :
  (0 <? w)%float = true -> overlays [el] (page el) w = [overlay w 0 el].
Proof.
  intros Hw. rewrite (overlays_positive _ _ _ Hw).
  unfold annotations. rewrite filter_cons_True by reflexivity.
  reflexivity.
Qed.

End Inverted.

Example inverted_box_of_width_zero :
  let x := PrimFloat.next_down 53 in
  (x <? 53)%float = true
  /\ width (overlay 613 0 (mkElement "title" [53; 0; x; 10]%float 1))
     = Some 0%float.
Proof. split; reflexivity. Qed.

(** C7, as stated, fails: the inverted box [900,100,100,200] on the
    current page, at width 800, yields an overlay, and its width is not
    non-negative. *)
Lemma inverted_box_negative_overlay :
  ~ (forall o,
        o ∈ overlays [mkElement "title" [900; 100; 100; 200]%float 1] 1 800 ->
        exists wd hg, width o = Some wd /\ height o = Some hg
                      /\ (0 <=? wd)%float = true /\ (0 <=? hg)%float = true).
Proof.
  intros H.
  destruct (H (overlay 800 0 (mkElement "title" [900; 100; 100; 200]%float 1)))
    as (wd & hg & Hw & _ & Hpos & _).
  - pose proof (overlays_single
                  (mkElement "title" [900; 100; 100; 200]%float 1) 800 eq_refl) as E.
    simpl page in E. rewrite E.
    apply list_elem_of_singleton. reflexivity.
  - apply (f_equal (fun o => match o with
                             | Some x => (0 <=? x)%float
                             | None => false
                             end)) in Hw.
    rewrite Hpos in Hw. vm_compute in Hw. discriminate Hw.
Qed.

(** C7, amended. The viewer neither rejects nor clamps a bounding box:
    at a width [w > 0] every annotation of the current page, inverted or
    not, yields its overlay, at its position among the annotations of the
    page, and no annotation is left out; the width of the overlay is the
    difference of the projected [x_max] and [x_min] and its height that of
    the projected [y_max] and [y_min], as the doubles give them, whatever
    their sign.  For the inverted box [900,100,100,200] at the width 800
    the width is -640. *)
Theorem inverted_box_is_projected_as_is
        (els : list Element) (p : Z) (w : float) (k : nat) (el : Element) :
  (0 <? w)%float = true -> annotations els p !! k = Some el ->
  overlays els p w !! k = Some (overlay w k el)
  /\ length (overlays els p w) = length (annotations els p)
  /\ width (overlay w k el)
     = JS.sub (denormalize w (bbox el) !! 2%nat) (denormalize w (bbox el) !! 0%nat)
  /\ height (overlay w k el)
     = JS.sub (denormalize w (bbox el) !! 3%nat) (denormalize w (bbox el) !! 1%nat)
  /\ (forall x0 y0 x1 y1,
         bbox el = [x0; y0; x1; y1] ->
         width (overlay w k el) = Some (x1 * w / 1000 - x0 * w / 1000)%float
         /\ height (overlay w k el)
            = Some (y1 * w / 1000 - y0 * w / 1000)%float)
  /\ width (overlay 800 0 (mkElement "title" [900; 100; 100; 200]%float 1))
     = Some (- (640))%float.
Proof.
  intros Hw Hel. rewrite (overlays_positive els p w Hw).
  split; [rewrite list_lookup_imap, Hel; reflexivity|].
  split; [apply length_imap|].
  split; [reflexivity|]. split; [reflexivity|].
  split; [|reflexivity].
  intros x0 y0 x1 y1 Hb. unfold overlay. cbn [width height].
  rewrite Hb. split; reflexivity.
Qed.

Lemma inverted_box_is_projected_as_is_witness :
  let els := [mkElement "title" [100; 100; 900; 200]%float 1;
              mkElement "figure" [0; 0; 10; 10]%float 2;
              mkElement "table" [900; 100; 100; 200]%float 1] in
  overlays els 1 800 !! 1%nat
  = Some (overlay 800 1 (mkElement "table" [900; 100; 100; 200]%float 1))
  /\ width (overlay 800 1 (mkElement "table" [900; 100; 100; 200]%float 1))
     = Some (100 * 800 / 1000 - 900 * 800 / 1000)%float.
Proof.
  intros els.
  pose proof (inverted_box_is_projected_as_is
                els 1 800 1 (mkElement "table" [900; 100; 100; 200]%float 1)
                eq_refl eq_refl) as (H1 & _ & _ & _ & H2 & _).
  split; [exact H1 | apply (H2 900 100 100 200)%float; reflexivity].
Defined.

(** ** Callbacks that arrive late *)

Section Callbacks.

Lemma deliver_source (f g : File) (c : Callback) (v : View) :
  deliver (mkDelivery f c) v = deliver (mkDelivery g c) v.
Proof. reflexivity. Qed.

Lemma success_state (n : Z) (v : View) :
  numPages (onDocumentLoadSuccess n v) = Some n
  /\ error (onDocumentLoadSuccess n v) = None
  /\ loadProgress (onDocumentLoadSuccess n v) = None
  /\ currentPage (onDocumentLoadSuccess n v) = 1.
Proof. repeat split. Qed.

Lemma error_state (m : string) (v : View) :
  error (onDocumentLoadError m v) = Some (errorMessage m)
  /\ numPages (onDocumentLoadError m v) = numPages v
  /\ loadProgress (onDocumentLoadError m v) = loadProgress v.
Proof. repeat split. Qed.

Lemma progress_keeps_rest (p : option Progress) (v : View) :
  numPages (onDocumentLoadProgress p v) = numPages v
  /\ error (onDocumentLoadProgress p v) = error v
  /\ currentPage (onDocumentLoadProgress p v) = currentPage v.
Proof.
  unfold onDocumentLoadProgress. destruct p as [p|]; [|auto].
  destruct (JS.truthy (loaded p) && JS.truthy (total p)); [|auto].
  destruct (loaded p), (total p); auto.
Qed.

End Callbacks.

Example swapped_view :
  mounted_then_swapped 1%nat 2%nat
  = {| file := Some 2%nat; currentPage := 1; numPages := None; pageWidth := 0;
       loadProgress := None; error := None; fileUrl := Some 2%nat;
       renderText := false; cleanup := Some 2%nat |}.
Proof. reflexivity. Qed.

(** C3, as stated, fails: the viewer is mounted on document 1 and then
    handed document 2; the success callback of document 1, arriving
    late, is not discarded: it sets the page count. *)
Lemma late_success_sets_page_count :
  ~ (let v := mounted_then_swapped 1%nat 2%nat in
     let d := mkDelivery 1%nat (LoadSuccess 5) in
     file v <> Some (source d) ->
     numPages (deliver d v) = numPages v
     /\ loadProgress (deliver d v) = loadProgress v
     /\ error (deliver d v) = error v).
Proof.
  intros H. destruct H as [E _]; [discriminate|]. discriminate E.
Qed.

(** C3, amended. The viewer makes no identity or generation check: a
    callback that is delivered after the document has changed is applied
    exactly as one of the active document would be.  A late success sets
    the page count, clears the error and the progress and goes to page 1;
    a late failure stores its error text; a late progress report is
    handled as any progress report. *)
Theorem late_callbacks_are_applied (v : View) (d : Delivery) :
  file v <> Some (source d) ->
  (forall f, deliver (mkDelivery f (callback d)) v = deliver d v)
  /\ match callback d with
     | LoadSuccess n =>
         numPages (deliver d v) = Some n /\ error (deliver d v) = None
         /\ loadProgress (deliver d v) = None /\ currentPage (deliver d v) = 1
     | LoadError m => error (deliver d v) = Some (errorMessage m)
     | LoadProgress p => deliver d v = onDocumentLoadProgress p v
     end.
Proof.
  intros _. destruct d as [f c]. split.
  - intros g. apply deliver_source.
  - destruct c as [n|m|p]; simpl.
    + apply (success_state n v).
    + reflexivity.
    + reflexivity.
Qed.

Lemma late_callbacks_are_applied_witness :
  numPages (deliver (mkDelivery 1%nat (LoadSuccess 5)) (mounted_then_swapped 1%nat 2%nat))
  = Some 5.
Proof.
  apply (late_callbacks_are_applied
           (mounted_then_swapped 1%nat 2%nat) (mkDelivery 1%nat (LoadSuccess 5))).
  discriminate.
Defined.

(** ** Progress reports after the load has ended *)

Section AfterTheEnd.

(** The success handler clears the progress; the failure handler leaves
    it. *)
Lemma progress_at_the_end (n : Z) (m : string) (v : View) :
  loadProgress (onDocumentLoadSuccess n v) = None
  /\ loadProgress (onDocumentLoadError m v) = loadProgress v.
Proof. split; reflexivity. Qed.

(** The progress handler does not look at the page count or the
    error. *)
Lemma progress_whatever_the_state (v : View) (l t : float) :
  JS.truthy (Some l) = true -> JS.truthy (Some t) = true ->
  loadProgress (onDocumentLoadProgress (Some (mkProgress (Some l) (Some t))) v)
  = Some (pct l t).
Proof. intros Hl Ht. now rewrite (progress_applied v l t Hl Ht). Qed.

End AfterTheEnd.

(** C8 at the report 23 of 40 received after a success with 3 pages, and
    after a failure.  While the document loads, a report 40 of 40 shows
    100 in the progress badge; the success clears the badge; the state is
    terminal (a page count, or an error, is there), and yet the later
    report is not discarded: 57 is stored and shown by the badge, beside
    the page count, or the error, which stay. *)
Theorem progress_after_the_end_is_shown :
  let report := Some (mkProgress (Some 23%float) (Some 40%float)) in
  let mounted := (mount (Some 0%nat) 1 []).1 in
  let loading :=
    onDocumentLoadProgress (Some (mkProgress (Some 40%float) (Some 40%float)))
                           mounted in
  let ready := onDocumentLoadSuccess 3 loading in
  let errored := onDocumentLoadError "Invalid PDF structure." mounted in
  badge loading = Some 100%float
  /\ numPages ready = Some 3 /\ badge ready = None
  /\ badge (onDocumentLoadProgress report ready) = Some 57%float
  /\ numPages (onDocumentLoadProgress report ready) = Some 3
  /\ error errored = Some CORRUPT_MESSAGE /\ badge errored = None
  /\ badge (onDocumentLoadProgress report errored) = Some 57%float
  /\ error (onDocumentLoadProgress report errored) = Some CORRUPT_MESSAGE.
Proof. repeat split. Qed.

(** ** Object URLs *)

Section ObjectUrls.

Implicit Types (log : Registry) (v : View) (u : Url).

Lemma balanced_nil : Balanced None [].
Proof.
  split; simpl.
  - constructor.
  - constructor.
  - reflexivity.
  - reflexivity.
  - intros k. rewrite drop_nil.
    change (size (∅ : gset Url) <= 1)%nat. rewrite size_empty. lia.
Qed.

Lemma balanced_revoke u log :
  Balanced (Some u) log -> Balanced None (Revoke u :: log).
Proof.
  intros [Hfresh Hnodup Hperm Hlive Hsingle]. split; simpl.
  - eapply Forall_impl; [exact Hfresh|]. simpl. intros; lia.
  - exact Hnodup.
  - rewrite Hperm. simpl. reflexivity.
  - rewrite Hlive. apply difference_diag_L.
  - intros [|k]; simpl.
    + rewrite Hlive, difference_diag_L, size_empty. lia.
    + apply Hsingle.
Qed.

Lemma balanced_create log :
  Balanced None log ->
  Balanced (Some (length log)) (Create (length log) :: log).
Proof.
  intros [Hfresh Hnodup Hperm Hlive Hsingle]. split; simpl.
  - constructor; [lia|].
    eapply Forall_impl; [exact Hfresh|]. simpl. intros; lia.
  - constructor; [|exact Hnodup].
    intros Hin. rewrite Forall_forall in Hfresh.
    specialize (Hfresh _ Hin). simpl in Hfresh. lia.
  - simpl in Hperm. rewrite Hperm. reflexivity.
  - rewrite Hlive. apply union_empty_l_L.
  - intros [|k]; simpl.
    + rewrite Hlive, union_empty_l_L, size_singleton. lia.
    + apply Hsingle.
Qed.

Lemma runCleanup_balanced v log :
  Balanced (cleanup v) log -> Balanced None (runCleanup v log).
Proof.
  unfold runCleanup. destruct (cleanup v) as [u|]; [|auto].
  apply balanced_revoke.
Qed.

Lemma runEffect_balanced v log :
  Balanced None log ->
  Balanced (cleanup (runEffect v log).1) (runEffect v log).2.
Proof.
  intros H. unfold runEffect. destruct (file v) as [f|]; simpl.
  - apply balanced_create, H.
  - exact H.
Qed.

Lemma setFile_balanced (g : option File) v log :
  Balanced (cleanup v) log ->
  Balanced (cleanup (setFile g v log).1) (setFile g v log).2.
Proof.
  intros H. unfold setFile. destruct (decide (g = file v)); [exact H|].
  apply runEffect_balanced.
  apply (runCleanup_balanced
           (mkView g (currentPage v) (numPages v) (pageWidth v)
                   (loadProgress v) (error v) (fileUrl v) (renderText v)
                   (cleanup v))).
  exact H.
Qed.

Lemma swaps_balanced (fs : list (option File)) v log :
  Balanced (cleanup v) log ->
  Balanced (cleanup (swaps fs v log).1) (swaps fs v log).2.
Proof.
  revert v log. induction fs as [|g fs IH]; intros v log H; simpl.
  - exact H.
  - pose proof (setFile_balanced g v log H) as Hstep.
    destruct (setFile g v log) as [v' log']. apply IH, Hstep.
Qed.

Lemma running_balanced (f : option File) (fs : list (option File)) :
  Balanced (cleanup (running f fs []).1) (running f fs []).2.
Proof.
  unfold running, mount.
  pose proof (runEffect_balanced (initial f 1) [] balanced_nil) as H.
  destruct (runEffect (initial f 1) []) as [v log]. apply swaps_balanced, H.
Qed.

(** A swap to another document revokes the URL of the previous one. *)
Lemma setFile_revokes (g : option File) v log u :
  Balanced (cleanup v) log -> cleanup v = Some u -> g <> file v ->
  Revoke u ∈ (setFile g v log).2 /\ u ∉ live (setFile g v log).2.
Proof.
  intros H Hu Hg.
  assert (u < length log)%nat as Hlt.
  { destruct H as [Hfresh _ Hperm _ _]. rewrite Hu in Hperm.
    rewrite Forall_forall in Hfresh. apply Hfresh.
    rewrite Hperm. simpl. apply list_elem_of_here. }
  unfold setFile. rewrite decide_False by exact Hg.
  unfold runEffect, runCleanup. simpl. rewrite Hu.
  destruct g as [f|]; simpl.
  - split; [apply list_elem_of_further, list_elem_of_here|].
    destruct H as [_ _ _ Hlive _]. rewrite Hu in Hlive.
    rewrite Hlive, difference_diag_L, union_empty_l_L.
    apply not_elem_of_singleton. lia.
  - split; [apply list_elem_of_here|].
    destruct H as [_ _ _ Hlive _]. rewrite Hu in Hlive.
    rewrite Hlive, difference_diag_L. apply not_elem_of_empty.
Qed.

End ObjectUrls.

Example lifetime_three_swaps :
  lifetime (Some 7%nat) [Some 8%nat; Some 8%nat; None; Some 9%nat] []
  = [Revoke 4%nat; Create 4%nat; Revoke 2%nat; Create 2%nat;
     Revoke 0%nat; Create 0%nat].
Proof. reflexivity. Qed.

(** C9. Over the life of a viewer (mount, any sequence of document
    swaps, teardown), starting from an empty registry: as many object URLs
    are revoked as are created, and every created URL is revoked exactly
    once; at no moment are two URLs live, and none is live at the end; and
    a swap to another document revokes the URL of the previous one. *)
Theorem object_urls_released_exactly_once
        (f : option File) (fs : list (option File)) :
  length (revokes (lifetime f fs [])) = length (creates (lifetime f fs []))
  /\ revokes (lifetime f fs []) ≡ₚ creates (lifetime f fs [])
  /\ NoDup (creates (lifetime f fs []))
  /\ NoDup (revokes (lifetime f fs []))
  /\ live (lifetime f fs []) = ∅
  /\ (forall k, (size (live (drop k (lifetime f fs []))) <= 1)%nat)
  /\ (forall g u,
         cleanup (running f fs []).1 = Some u ->
         g <> file (running f fs []).1 ->
         Revoke u ∈ (setFile g (running f fs []).1 (running f fs []).2).2
         /\ u ∉ live (setFile g (running f fs []).1 (running f fs []).2).2).
Proof.
  pose proof (running_balanced f fs) as Hrun.
  assert (Balanced None (lifetime f fs [])) as Hend.
  { unfold lifetime. destruct (running f fs []) as [v log].
    apply runCleanup_balanced, Hrun. }
  destruct Hend as [_ Hnodup Hperm Hlive Hsingle]. simpl in Hperm.
  split; [now rewrite Hperm|].
  split; [now rewrite Hperm|].
  split; [exact Hnodup|].
  split; [now rewrite <- Hperm|].
  split; [exact Hlive|].
  split; [exact Hsingle|].
  intros g u Hu Hg. apply setFile_revokes; assumption.
Qed.

Lemma object_urls_released_exactly_once_witness :
  live (lifetime (Some 7%nat) [Some 8%nat; None; Some 9%nat] []) = ∅
  /\ Revoke 0%nat
       ∈ (setFile (Some 8%nat) (running (Some 7%nat) [] []).1
                  (running (Some 7%nat) [] []).2).2.
Proof.
  split.
  - apply (object_urls_released_exactly_once
             (Some 7%nat) [Some 8%nat; None; Some 9%nat]).
  - pose proof (object_urls_released_exactly_once (Some 7%nat) [])
      as (_ & _ & _ & _ & _ & _ & Hswap).
    apply (Hswap (Some 8%nat) 0%nat).
    + reflexivity.
    + discriminate.
Defined.

(** ** Border class of an overlay *)

Section BorderClass.

Variables (w : float) (i : nat) (el : Element).

(** A category of the colour table gets its colour. *)
Lemma border_of_category (c : string) :
  COLOR_MAP !! type el = Some c ->
  border (className (overlay w i el)) = JS.or_else (JS.PString c) "border-gray-500".
Proof. intros H. simpl. unfold JS.get. now rewrite H. Qed.

(** A type that is neither in the colour table nor the name of an
    inherited property gets the gray border. *)
Lemma border_default :
  COLOR_MAP !! type el = None -> type el ∉ JS.Object_prototype ->
  border (className (overlay w i el)) = JS.PString "border-gray-500".
Proof.
  intros Hown Hproto. simpl. unfold JS.get. rewrite Hown.
  now rewrite decide_False by exact Hproto.
Qed.

(** A type that names an inherited property gets that property, not
    the gray border. *)
Lemma border_inherited :
  COLOR_MAP !! type el = None -> type el ∈ JS.Object_prototype ->
  border (className (overlay w i el)) = JS.PInherited (type el).
Proof.
  intros Hown Hproto. simpl. unfold JS.get. rewrite Hown.
  now rewrite decide_True by exact Hproto.
Qed.

(** Whatever the type, the overlay sits at the projected position. *)
Lemma overlay_position :
  left (overlay w i el) = denormalize w (bbox el) !! 0%nat
  /\ top (overlay w i el) = denormalize w (bbox el) !! 1%nat.
Proof. split; reflexivity. Qed.

End BorderClass.

Example border_of_unknown_type :
  border (className (overlay 800 0 (mkElement "footnote" [0; 0; 10; 10]%float 1)))
  = JS.PString "border-gray-500".
Proof. reflexivity. Qed.

(** C10 at the annotation type "constructor", which is outside the
    colour table: the overlay is produced at the projected position, but
    its class name interpolates the property that [COLOR_MAP] inherits
    under that name, not the default gray border class. *)
Theorem inherited_type_name_misses_default :
  let el := mkElement "constructor" [100; 100; 900; 200]%float 1 in
  COLOR_MAP !! type el = None
  /\ overlays [el] 1 800 = [overlay 800 0 el]
  /\ left (overlay 800 0 el) = Some (100 * 800 / 1000)%float
  /\ top (overlay 800 0 el) = Some (100 * 800 / 1000)%float
  /\ border (className (overlay 800 0 el)) = JS.PInherited "constructor"
  /\ border (className (overlay 800 0 el)) <> JS.PString "border-gray-500".
Proof.
  intros el.
  split; [reflexivity|].
  split; [apply (overlays_single el 800); reflexivity|].
  split; [reflexivity|]. split; [reflexivity|]. split; [reflexivity|].
  discriminate.
Qed.

(** * Further properties of the viewer *)

(** ** Geometry of the overlays *)


(** ** The list of overlays *)

Section OverlayList.

Implicit Types (els : list Element) (p : Z) (w : float) (v : View).

Lemma overlays_not_positive els p w :
  (0 <? w)%float = false -> overlays els p w = [].
Proof. intros Hw. unfold overlays. now rewrite Hw. Qed.

Lemma errorMessage_not_empty (m : string) : errorMessage m <> ""%string.
Proof.
  unfold errorMessage.
  destruct (JS.includes "Worker" m || JS.includes "worker" m); [discriminate|].
  destruct (JS.includes "Invalid" m || JS.includes "corrupted" m); discriminate.
Qed.

Lemma rendered_error els v (e : string) :
  error v = Some e -> e <> ""%string -> rendered els v = [].
Proof.
  intros He Hne. unfold rendered. rewrite He.
  destruct (fileUrl v); [|reflexivity].
  destruct (String.eqb_spec e ""); [contradiction | reflexivity].
Qed.

End OverlayList.

(** X4. At a positive width the overlays are the annotations of the
    current page, one each and in their order: the overlay at position
    [k] has the key [k] and is the overlay of the [k]-th annotation of the
    page; every overlay comes from an annotation of that page. *)
Theorem overlays_follow_annotations
        (els : list Element) (p : Z) (w : float) :
  (0 <? w)%float = true ->
  length (overlays els p w) = length (annotations els p)
  /\ (forall k, overlays els p w !! k
                = overlay w k <$> annotations els p !! k)
  /\ (forall k o, overlays els p w !! k = Some o ->
                  key o = k
                  /\ exists el, el ∈ els /\ page el = p
                                /\ title o = ("Type: " ++ type el)%string).
Proof.
  intros Hw. rewrite (overlays_positive els p w Hw).
  split; [apply length_imap|].
  split; [intros k; apply list_lookup_imap|].
  intros k o Ho. rewrite list_lookup_imap in Ho.
  destruct (annotations els p !! k) as [el|] eqn:Hel; [|discriminate].
  injection Ho as <-. split; [reflexivity|].
  exists el. apply list_elem_of_lookup_2 in Hel.
  apply list_elem_of_filter in Hel as [Hp Hin]. auto.
Qed.

Lemma overlays_follow_annotations_witness :
  length (overlays [mkElement "title" [100; 100; 900; 200]%float 1;
                    mkElement "table" [0; 0; 1000; 1000]%float 2] 1 800)
  = length (annotations [mkElement "title" [100; 100; 900; 200]%float 1;
                         mkElement "table" [0; 0; 1000; 1000]%float 2] 1).
Proof.
  apply (overlays_follow_annotations
           [mkElement "title" [100; 100; 900; 200]%float 1;
            mkElement "table" [0; 0; 1000; 1000]%float 2] 1 800).
  reflexivity.
Defined.

(** X5. No overlay is drawn while the measured width is zero or
    negative, while the object URL is not there yet, or while an error
    text is shown; in particular none is drawn in the initial state and
    none after a load failure. *)
Theorem overlays_suppressed (els : list Element) (v : View) :
  ((0 <? pageWidth v)%float = false -> rendered els v = [])
  /\ (fileUrl v = None -> rendered els v = [])
  /\ (forall e, error v = Some e -> e <> ""%string -> rendered els v = [])
  /\ (forall f c, rendered els (initial f c) = [])
  /\ (forall m, rendered els (onDocumentLoadError m v) = []).
Proof.
  split; [|split; [|split; [|split]]].
  - intros Hw. unfold rendered. rewrite (overlays_not_positive _ _ _ Hw).
    destruct (fileUrl v), (error v) as [e|]; try reflexivity.
    destruct (String.eqb e ""); reflexivity.
  - intros H. unfold rendered. now rewrite H.
  - intros e. apply rendered_error.
  - reflexivity.
  - intros m.
    apply (rendered_error els (onDocumentLoadError m v) (errorMessage m)).
    + reflexivity.
    + apply errorMessage_not_empty.
Qed.

Lemma overlays_suppressed_witness :
  rendered [mkElement "title" [100; 100; 900; 200]%float 1]
           (fst (mount (Some 0%nat) 1 []))
  = [].
Proof.
  apply (proj1 (overlays_suppressed
                  [mkElement "title" [100; 100; 900; 200]%float 1]
                  (fst (mount (Some 0%nat) 1 [])))).
  reflexivity.
Defined.

(** X6. A success that follows a failure brings the overlays back: once
    the object URL is there, after a load failure and then a load success
    the overlays drawn are those of page 1 at the measured width. *)
Theorem success_after_failure_recovers
        (els : list Element) (v : View) (m : string) (n : Z) :
  fileUrl v <> None ->
  rendered els (onDocumentLoadSuccess n (onDocumentLoadError m v))
  = overlays els 1 (pageWidth v)
  /\ error (onDocumentLoadSuccess n (onDocumentLoadError m v)) = None.
Proof.
  intros Hu. split; [|reflexivity].
  unfold rendered. simpl. destruct (fileUrl v); [reflexivity | contradiction].
Qed.

Lemma success_after_failure_recovers_witness :
  rendered [mkElement "title" [100; 100; 900; 200]%float 1]
           (onDocumentLoadSuccess 3
              (onDocumentLoadError "worker"
                 (handleResize 800 (fst (mount (Some 0%nat) 1 [])))))
  = overlays [mkElement "title" [100; 100; 900; 200]%float 1] 1 800.
Proof.
  apply (success_after_failure_recovers
           [mkElement "title" [100; 100; 900; 200]%float 1]
           (handleResize 800 (fst (mount (Some 0%nat) 1 []))) "worker" 3).
  discriminate.
Defined.

(** X7. Page and overlays use one scale: whenever the page element is
    there and some overlay is drawn, the page is drawn at the current
    page and at exactly the width the overlays were projected with. *)
Theorem page_and_overlays_share_width
        (els : list Element) (v : View) (o : Overlay) (pe : Z * option float) :
  o ∈ rendered els v -> pageElement v = Some pe ->
  pe = (currentPage v, Some (pageWidth v))
  /\ o ∈ imap (overlay (pageWidth v)) (annotations els (currentPage v)).
Proof.
  intros Ho Hpe.
  assert (o ∈ overlays els (currentPage v) (pageWidth v)) as Hin.
  { unfold rendered in Ho.
    destruct (fileUrl v); [|inversion Ho].
    destruct (error v) as [e|]; [|exact Ho].
    destruct (String.eqb e ""); [exact Ho | inversion Ho]. }
  unfold overlays in Hin. unfold pageElement in Hpe.
  destruct (0 <? pageWidth v)%float; [|inversion Hin].
  destruct (controls v); [|discriminate].
  injection Hpe as <-. auto.
Qed.

Lemma page_and_overlays_share_width_witness :
  let els := [mkElement "title" [100; 100; 900; 200]%float 1] in
  let v := handleResize 800 (onDocumentLoadSuccess 3 (fst (mount (Some 0%nat) 1 []))) in
  (1, Some 800%float) = (currentPage v, Some (pageWidth v))
  /\ overlay 800 0 (mkElement "title" [100; 100; 900; 200]%float 1)
     ∈ imap (overlay (pageWidth v)) (annotations els (currentPage v)).
Proof.
  intros els v.
  apply (page_and_overlays_share_width
           els v (overlay 800 0 (mkElement "title" [100; 100; 900; 200]%float 1))
           (1, Some 800%float)).
  - apply list_elem_of_here.
  - reflexivity.
Defined.

(** ** Border colours of the known categories *)

Section Colours.

Lemma COLOR_MAP_entries (t c : string) :
  COLOR_MAP !! t = Some c ->
  (t, c) ∈ [ ("title", "border-red-500"); ("header", "border-blue-500");
             ("paragraph", "border-green-500"); ("table", "border-purple-500");
             ("figure", "border-yellow-500") ]%string.
Proof. intros H. apply elem_of_list_to_map_2 in H. exact H. Qed.

Lemma COLOR_MAP_cases (t c : string) :
  COLOR_MAP !! t = Some c ->
  (t, c) = ("title", "border-red-500")%string
  \/ (t, c) = ("header", "border-blue-500")%string
  \/ (t, c) = ("paragraph", "border-green-500")%string
  \/ (t, c) = ("table", "border-purple-500")%string
  \/ (t, c) = ("figure", "border-yellow-500")%string.
Proof.
  intros H. apply COLOR_MAP_entries in H.
  repeat (apply elem_of_cons in H as [H|H]; [tauto|]).
  inversion H.
Qed.

End Colours.

(** X8. The five categories of the colour table are told apart: an
    annotation whose type is in the table gets the table's class, which is
    never the gray fallback, and two annotations whose types are in the
    table get the same class only if they have the same type. *)
Theorem categories_have_distinct_borders
        (w w' : float) (i i' : nat) (el el' : Element) (c c' : string) :
  COLOR_MAP !! type el = Some c -> COLOR_MAP !! type el' = Some c' ->
  border (className (overlay w i el)) = JS.PString c
  /\ c <> "border-gray-500"%string
  /\ (border (className (overlay w i el))
      = border (className (overlay w' i' el')) -> type el = type el').
Proof.
  intros H H'.
  assert (forall x d, COLOR_MAP !! type x = Some d ->
                      JS.or_else (JS.get COLOR_MAP (type x)) "border-gray-500"
                      = JS.PString d) as Hget.
  { intros x d Hx. unfold JS.get. rewrite Hx.
    apply COLOR_MAP_cases in Hx.
    destruct Hx as [E|[E|[E|[E|E]]]]; injection E as _ ->; reflexivity. }
  simpl. rewrite (Hget el c H), (Hget el' c' H').
  apply COLOR_MAP_cases in H, H'.
  split; [reflexivity|]. split.
  - destruct H as [E|[E|[E|[E|E]]]]; injection E as _ ->; discriminate.
  - intros Heq. injection Heq as ->.
    destruct H as [E|[E|[E|[E|E]]]]; injection E as -> Ec;
      destruct H' as [E'|[E'|[E'|[E'|E']]]]; injection E' as -> Ec';
        reflexivity || (rewrite Ec in Ec'; discriminate Ec').
Qed.

Lemma categories_have_distinct_borders_witness :
  border (className (overlay 800 0 (mkElement "table" [] 1)))
  = JS.PString "border-purple-500".
Proof.
  apply (categories_have_distinct_borders
           800 800 0 1 (mkElement "table" [] 1) (mkElement "figure" [] 1)
           "border-purple-500" "border-yellow-500"); reflexivity.
Defined.

(** ** Substrings and the kind of a failure *)

Section Substrings.

Lemma prefix_spec (n h : string) :
  String.prefix n h = true <-> exists post, h = (n ++ post)%string.
Proof.
  revert h. induction n as [|a n IH]; intros [|b h]; simpl.
  - split; [intros _; exists ""%string; reflexivity | reflexivity].
  - split; [intros _; exists (String b h); reflexivity | reflexivity].
  - split; [discriminate | intros [post E]; discriminate E].
  - destruct (ascii_dec a b) as [->|Hne].
    + rewrite IH. split; intros [post E]; exists post.
      * now rewrite E.
      * now injection E.
    + split; [discriminate|]. intros [post E]. injection E as E1 _.
      congruence.
Qed.

Lemma includes_nil (n : string) :
  JS.includes n "" = if String.prefix n "" then true else false.
Proof. reflexivity. Qed.

Lemma includes_cons (n : string) (b : ascii) (h : string) :
  JS.includes n (String b h)
  = if String.prefix n (String b h) then true else JS.includes n h.
Proof. reflexivity. Qed.

Lemma includes_spec (n h : string) :
  JS.includes n h = true <-> contains n h.
Proof.
  unfold contains. induction h as [|b h IH];
    [rewrite includes_nil | rewrite includes_cons].
  - destruct (String.prefix n "") eqn:Hp.
    + split; [intros _|reflexivity].
      apply prefix_spec in Hp as [post E]. exists ""%string, post. exact E.
    + split; [discriminate|]. intros (pre & post & E).
      destruct pre; [|discriminate E]. simpl in E.
      assert (String.prefix n "" = true) as Ht
          by (apply prefix_spec; exists post; exact E).
      congruence.
  - destruct (String.prefix n (String b h)) eqn:Hp.
    + split; [intros _|reflexivity].
      apply prefix_spec in Hp as [post E]. exists ""%string, post. exact E.
    + rewrite IH. split.
      * intros (pre & post & E). exists (String b pre), post.
        simpl. now rewrite E.
      * intros (pre & post & E). destruct pre as [|a pre]; simpl in E.
        -- assert (String.prefix n (String b h) = true) as Ht
               by (apply prefix_spec; exists post; exact E).
           congruence.
        -- injection E as _ E. exists pre, post. exact E.
Qed.

Lemma includes_or (n1 n2 h : string) :
  JS.includes n1 h || JS.includes n2 h = true <-> contains n1 h \/ contains n2 h.
Proof. rewrite orb_true_iff, !includes_spec. reflexivity. Qed.

End Substrings.

(** X9. The kind of a load failure, by substrings of its message: it is
    WorkerUnavailable exactly when the message contains "Worker" or
    "worker"; CorruptDocument exactly when it contains neither of them but
    contains "Invalid" or "corrupted"; Unknown exactly when it contains
    none of the four. *)
Theorem failure_kind_by_substring (m : string) :
  (errorKind (errorMessage m) = WorkerUnavailable
   <-> contains "Worker" m \/ contains "worker" m)
  /\ (errorKind (errorMessage m) = CorruptDocument
      <-> ~ (contains "Worker" m \/ contains "worker" m)
          /\ (contains "Invalid" m \/ contains "corrupted" m))
  /\ (errorKind (errorMessage m) = Unknown
      <-> ~ (contains "Worker" m \/ contains "worker" m)
          /\ ~ (contains "Invalid" m \/ contains "corrupted" m)).
Proof.
  rewrite <- !includes_or.
  destruct (JS.includes "Worker" m || JS.includes "worker" m) eqn:Hw.
  - rewrite (errorMessage_worker m Hw), errorKind_worker.
    repeat split; try discriminate; try tauto; intros [? _]; congruence.
  - destruct (JS.includes "Invalid" m || JS.includes "corrupted" m) eqn:Hc.
    + rewrite (errorMessage_corrupt m Hw Hc), errorKind_corrupt.
      repeat split; try discriminate; try tauto; intros [_ ?]; congruence.
    + rewrite (errorMessage_other m Hw Hc), errorKind_failed.
      repeat split; try discriminate; try tauto; intros [_ ?]; congruence.
Qed.

(** ** More on navigation *)

Section NavigationMore.

Lemma onPageChange_same (v : View) : onPageChange (currentPage v) v = v.
Proof. destruct v; reflexivity. Qed.

Lemma onPageChange_twice (a b : Z) (v : View) :
  onPageChange a (onPageChange b v) = onPageChange a v.
Proof. reflexivity. Qed.

Lemma clickPrev_back (v : View) :
  controls v <> None -> 1 < currentPage v ->
  clickPrev v = onPageChange (currentPage v - 1) v.
Proof.
  intros Hc Hlt. unfold clickPrev. destruct (controls v); [|contradiction].
  destruct (Z.leb_spec (currentPage v) 1); [lia|].
  unfold JS.max. f_equal. lia.
Qed.

Lemma clickNext_forward (v : View) (p : Z) :
  controls v = Some p -> currentPage v < p ->
  clickNext v = onPageChange (currentPage v + 1) v.
Proof.
  intros Hc Hlt. unfold clickNext. rewrite Hc.
  destruct (Z.leb_spec p (currentPage v)); [lia|].
  unfold JS.min. f_equal. lia.
Qed.

Lemma controls_onPageChange (a : Z) (v : View) :
  controls (onPageChange a v) = controls v.
Proof. reflexivity. Qed.

Lemma click_frame (c : Click) (v : View) :
  click c v = onPageChange (currentPage (click c v)) v.
Proof.
  destruct c; simpl; unfold clickPrev, clickNext;
    destruct (controls v); try (symmetry; apply onPageChange_same);
    match goal with |- context [if ?b then _ else _] => destruct b end;
    try (symmetry; apply onPageChange_same); reflexivity.
Qed.

Lemma clicks_frame (cs : list Click) (v : View) :
  clicks cs v = onPageChange (currentPage (clicks cs v)) v.
Proof.
  revert v. induction cs as [|c cs IH]; intros v; simpl.
  - symmetry. apply onPageChange_same.
  - rewrite (IH (click c v)) at 1. rewrite (click_frame c v) at 2.
    apply onPageChange_twice.
Qed.

Lemma click_hidden (c : Click) (v : View) : controls v = None -> click c v = v.
Proof.
  intros H. destruct c; simpl; unfold clickPrev, clickNext; now rewrite H.
Qed.

End NavigationMore.

(** X11. Prev undoes Next and Next undoes Prev: with the page count [p]
    known, Next then Prev gives back the same view when the current page
    is below [p], and Prev then Next when it is above 1 and at most
    [p]. *)
Theorem prev_next_round_trip (v : View) (p : Z) :
  controls v = Some p ->
  (1 <= currentPage v < p -> clickPrev (clickNext v) = v)
  /\ (1 < currentPage v <= p -> clickNext (clickPrev v) = v).
Proof.
  intros Hc. split; intros [Hlo Hhi].
  - rewrite (clickNext_forward v p Hc Hhi).
    rewrite clickPrev_back; simpl; try lia.
    + rewrite onPageChange_twice.
      replace (currentPage v + 1 - 1) with (currentPage v) by lia.
      apply onPageChange_same.
    + rewrite controls_onPageChange, Hc. discriminate.
  - rewrite clickPrev_back; [|rewrite Hc; discriminate | lia].
    rewrite (clickNext_forward _ p); simpl; try lia.
    + rewrite onPageChange_twice.
      replace (currentPage v - 1 + 1) with (currentPage v) by lia.
      apply onPageChange_same.
    + rewrite controls_onPageChange. exact Hc.
Qed.

Lemma prev_next_round_trip_witness :
  let v := onDocumentLoadSuccess 3 (initial (Some 0%nat) 1) in
  clickPrev (clickNext v) = v.
Proof.
  intros v. apply (prev_next_round_trip v 3); [reflexivity | simpl; lia].
Defined.

(** X12. Navigation changes the current page and nothing else: after any
    sequence of clicks every state cell of the viewer is as before, the
    current page apart; and while the page count is unknown or zero the
    clicks change nothing at all. *)
Theorem navigation_only_moves_the_page (cs : list Click) (v : View) :
  clicks cs v = onPageChange (currentPage (clicks cs v)) v
  /\ (controls v = None -> clicks cs v = v).
Proof.
  split; [apply clicks_frame|].
  revert v. induction cs as [|c cs IH]; intros v Hc; simpl; [reflexivity|].
  rewrite (click_hidden c v Hc). apply IH, Hc.
Qed.

Lemma navigation_only_moves_the_page_witness :
  clicks [Next; Next; Prev] (initial (Some 0%nat) 1) = initial (Some 0%nat) 1.
Proof.
  apply (navigation_only_moves_the_page [Next; Next; Prev] (initial (Some 0%nat) 1)).
  reflexivity.
Defined.

(** X13. Repeated clicks: with the page count [p] known, [k] clicks on
    Next from a page at most [p] lead to [min p (currentPage + k)], and
    [k] clicks on Prev from a page at least 1 lead to
    [max 1 (currentPage - k)]. *)
Theorem repeated_clicks (v : View) (p : Z) (k : nat) :
  controls v = Some p ->
  (currentPage v <= p ->
   currentPage (clicks (repeat Next k) v) = Z.min p (currentPage v + Z.of_nat k))
  /\ (1 <= currentPage v ->
      currentPage (clicks (repeat Prev k) v)
      = Z.max 1 (currentPage v - Z.of_nat k)).
Proof.
  revert v. induction k as [|k IH]; intros v Hc.
  - simpl. split; intros; lia.
  - split; intros Hb; simpl repeat; simpl clicks.
    + destruct (Z.eq_dec (currentPage v) p) as [E|N].
      * assert (clickNext v = v) as ->.
        { unfold clickNext. rewrite Hc, E, Z.leb_refl. reflexivity. }
        rewrite (proj1 (IH v Hc) Hb). lia.
      * rewrite (clickNext_forward v p Hc) by lia.
        rewrite (proj1 (IH (onPageChange (currentPage v + 1) v) Hc));
          simpl; lia.
    + destruct (Z.eq_dec (currentPage v) 1) as [E|N].
      * assert (clickPrev v = v) as ->.
        { unfold clickPrev. rewrite Hc, E. reflexivity. }
        rewrite (proj2 (IH v Hc) Hb). lia.
      * rewrite clickPrev_back; [|rewrite Hc; discriminate | lia].
        rewrite (proj2 (IH (onPageChange (currentPage v - 1) v) Hc));
          simpl; lia.
Qed.

Lemma repeated_clicks_witness :
  currentPage (clicks (repeat Next 5)
                      (onDocumentLoadSuccess 3 (initial (Some 0%nat) 1)))
  = Z.min 3 (1 + Z.of_nat 5).
Proof.
  apply (repeated_clicks (onDocumentLoadSuccess 3 (initial (Some 0%nat) 1)) 3 5).
  - reflexivity.
  - simpl. lia.
Defined.

(** X14. A page set by the host outside [1, p] is not clamped: beyond
    the last page Next does nothing and Prev goes back by exactly one;
    below page 1 Prev does nothing and Next goes up by exactly one. *)
Theorem host_page_is_not_clamped (v : View) (p : Z) :
  controls v = Some p -> 1 <= p ->
  (p < currentPage v ->
   clickNext v = v /\ currentPage (clickPrev v) = currentPage v - 1)
  /\ (currentPage v < 1 ->
      clickPrev v = v /\ currentPage (clickNext v) = currentPage v + 1).
Proof.
  intros Hc Hp. split; intros Hout; split.
  - unfold clickNext. rewrite Hc.
    destruct (Z.leb_spec p (currentPage v)); [reflexivity | lia].
  - rewrite clickPrev_back; [reflexivity | rewrite Hc; discriminate | lia].
  - unfold clickPrev. rewrite Hc.
    destruct (Z.leb_spec (currentPage v) 1); [reflexivity | lia].
  - rewrite (clickNext_forward v p Hc); [reflexivity | lia].
Qed.

Lemma host_page_is_not_clamped_witness :
  let v := onPageChange 10 (onDocumentLoadSuccess 3 (initial (Some 0%nat) 1)) in
  clickNext v = v /\ currentPage (clickPrev v) = 10 - 1.
Proof.
  intros v. apply (host_page_is_not_clamped v 3); [reflexivity | lia | simpl; lia].
Defined.

(** ** More on object URLs *)

Section ObjectUrlsMore.

Implicit Types (log : Registry) (v : View) (u : Url) (g : option File).

Lemma creates_runCleanup v log : creates (runCleanup v log) = creates log.
Proof. unfold runCleanup. destruct (cleanup v); reflexivity. Qed.

Lemma file_runEffect v log : file (runEffect v log).1 = file v.
Proof. unfold runEffect. destruct (file v); reflexivity. Qed.

Lemma file_setFile g v log : file (setFile g v log).1 = g.
Proof.
  unfold setFile. destruct (decide (g = file v)) as [->|_]; [reflexivity|].
  apply file_runEffect.
Qed.

Lemma setFile_same v log : setFile (file v) v log = (v, log).
Proof. unfold setFile. now rewrite decide_True. Qed.

Lemma runEffect_inuse v log :
  (forall u, fileUrl v = Some u -> u ∈ creates log) ->
  InUse (runEffect v log).1 (runEffect v log).2.
Proof.
  intros Hurl. unfold InUse, runEffect. destruct (file v) as [f|]; simpl.
  - split; [eauto|].
    intros u [= <-]. apply list_elem_of_here.
  - split; [reflexivity | exact Hurl].
Qed.

Lemma setFile_inuse g v log :
  InUse v log -> InUse (setFile g v log).1 (setFile g v log).2.
Proof.
  intros H. unfold setFile. destruct (decide (g = file v)); [exact H|].
  apply runEffect_inuse. simpl. intros u Hu.
  rewrite creates_runCleanup. apply H, Hu.
Qed.

Lemma swaps_inuse (fs : list (option File)) v log :
  InUse v log -> InUse (swaps fs v log).1 (swaps fs v log).2.
Proof.
  revert v log. induction fs as [|g fs IH]; intros v log H; simpl; [exact H|].
  pose proof (setFile_inuse g v log H) as Hstep.
  destruct (setFile g v log) as [v' log']. apply IH, Hstep.
Qed.

Lemma swaps_file (fs : list (option File)) v log :
  file (swaps fs v log).1 = default (file v) (last fs).
Proof.
  revert v log. induction fs as [|g fs IH]; intros v log; simpl; [reflexivity|].
  pose proof (file_setFile g v log) as Hg.
  destruct (setFile g v log) as [v' log']. rewrite IH. simpl in Hg. rewrite Hg.
  clear IH. destruct fs as [|h fs]; [reflexivity|]. rewrite last_cons_cons.
  destruct (last (h :: fs)) eqn:E; [reflexivity|].
  apply last_None in E. discriminate E.
Qed.

Lemma running_inuse (f : option File) (fs : list (option File)) :
  InUse (running f fs []).1 (running f fs []).2.
Proof.
  unfold running, mount.
  assert (InUse (runEffect (initial f 1) []).1 (runEffect (initial f 1) []).2)
    as H by (apply runEffect_inuse; intros u [=]).
  destruct (runEffect (initial f 1) []) as [v log]. apply swaps_inuse, H.
Qed.

Lemma running_file (f : option File) (fs : list (option File)) :
  file (running f fs []).1 = default f (last fs).
Proof.
  unfold running, mount.
  pose proof (file_runEffect (initial f 1) []) as H.
  destruct (runEffect (initial f 1) []) as [v log].
  rewrite swaps_file. simpl in H. now rewrite H.
Qed.

Lemma creates_runEffect v log :
  length (creates (runEffect v log).2)
  = (length (creates log) + match file v with Some _ => 1 | None => 0 end)%nat.
Proof.
  unfold runEffect. destruct (file v); simpl; lia.
Qed.

Lemma creates_setFile g v log :
  length (creates (setFile g v log).2)
  = (length (creates log) + activations (file v) [g])%nat.
Proof.
  unfold setFile. simpl. destruct (decide (g = file v)); simpl; [lia|].
  rewrite creates_runEffect. simpl. rewrite creates_runCleanup.
  destruct g; lia.
Qed.

Lemma creates_swaps (fs : list (option File)) v log :
  length (creates (swaps fs v log).2)
  = (length (creates log) + activations (file v) fs)%nat.
Proof.
  revert v log. induction fs as [|g fs IH]; intros v log; simpl; [lia|].
  pose proof (creates_setFile g v log) as Hc.
  pose proof (file_setFile g v log) as Hf.
  destruct (setFile g v log) as [v' log']. simpl in Hc, Hf.
  rewrite IH, Hc, Hf. simpl. lia.
Qed.

End ObjectUrlsMore.

(** X15. The URL in use is live: after mounting on [f] and any swaps, the
    [file] prop is the last one given; if it is a file, the URL held in
    [fileUrl] is the one live URL of the registry; if it is null, no URL
    is live, and a URL still held in [fileUrl] is one that has been
    revoked. *)
Theorem url_in_use_is_live (f : option File) (fs : list (option File)) :
  file (running f fs []).1 = default f (last fs)
  /\ (file (running f fs []).1 <> None ->
      exists u, fileUrl (running f fs []).1 = Some u
                /\ live (running f fs []).2 = {[u]})
  /\ (file (running f fs []).1 = None ->
      live (running f fs []).2 = ∅
      /\ forall u, fileUrl (running f fs []).1 = Some u ->
                   u ∈ revokes (running f fs []).2).
Proof.
  split; [apply running_file|].
  pose proof (running_inuse f fs) as [Hsync Hurl].
  pose proof (running_balanced f fs) as [_ _ Hperm Hlive _].
  destruct (running f fs []) as [v log]. simpl in *.
  destruct (file v) as [f'|]; split; try congruence.
  - intros _. destruct Hsync as (u & Hu & Hc). exists u.
    rewrite Hc in Hlive. auto.
  - intros _. rewrite Hsync in Hlive, Hperm. split; [exact Hlive|].
    intros u Hu. simpl in Hperm. rewrite <- Hperm. apply Hurl, Hu.
Qed.

Lemma url_in_use_is_live_witness :
  exists u, fileUrl (running (Some 7%nat) [Some 8%nat] []).1 = Some u
            /\ live (running (Some 7%nat) [Some 8%nat] []).2 = {[u]}.
Proof.
  apply (url_in_use_is_live (Some 7%nat) [Some 8%nat]). discriminate.
Defined.

(** X16. One URL per activation: over the life of a viewer the number of
    object URLs created is the number of times the [file] prop became
    another, non-null file (the mount included); a render with the same
    file creates and revokes nothing. *)
Theorem one_url_per_activation (f : option File) (fs : list (option File)) :
  length (creates (lifetime f fs [])) = activations None (f :: fs)
  /\ (forall v log, setFile (file v) v log = (v, log))
  /\ (forall g, lifetime f (fs ++ [g; g]) [] = lifetime f (fs ++ [g]) []).
Proof.
  split; [|split].
  - unfold lifetime, running, mount.
    pose proof (creates_runEffect (initial f 1) []) as Hm.
    pose proof (file_runEffect (initial f 1) []) as Hf.
    destruct (runEffect (initial f 1) []) as [v log]. simpl in Hm, Hf.
    pose proof (creates_swaps fs v log) as Hs.
    destruct (swaps fs v log) as [v' log']. simpl in Hs.
    unfold unmount. rewrite creates_runCleanup, Hs, Hm, Hf. simpl.
    destruct f; simpl; lia.
  - apply setFile_same.
  - intros g. unfold lifetime, running.
    destruct (mount f 1 []) as [v log].
    assert (forall l v log, swaps (l ++ [g; g]) v log = swaps (l ++ [g]) v log)
      as Hsw.
    { induction l as [|h l IH]; intros v0 log0; simpl.
      - pose proof (file_setFile g v0 log0) as Hg.
        destruct (setFile g v0 log0) as [v1 log1]. simpl in Hg.
        rewrite <- Hg at 1. now rewrite setFile_same.
      - destruct (setFile h v0 log0) as [v1 log1]. apply IH. }
    now rewrite Hsw.
Qed.

(** * The host page *)

Section Uploads.

Implicit Types (h : Host.Home) (f : Host.FileObject).

Lemma configured (api : string) f h :
  api <> ""%string ->
  Host.handleFileUpload (Some api) f h
  = (Host.setIsLoading true
       (Host.setCurrentPage 1
          (Host.setError None
             (Host.setResults None (Host.setFile (Some f) h)))),
     Some (Host.mkRequest (api ++ "/extract/" ++ Host.modelId h) f)).
Proof.
  intros Hapi. unfold Host.handleFileUpload.
  destruct (String.eqb_spec api ""); [contradiction | reflexivity].
Qed.

Lemma upload_end_failure (o : Host.Outcome) (msg : string) h :
  Host.uploadFailure o = Some msg ->
  Host.handleFileUpload_end o h
  = Host.mkHome None (Host.modelId h) (Host.results h) false
                (Host.currentPage h) (Some msg).
Proof.
  destruct o as [e|status detail|data]; simpl; intros [= <-]; reflexivity.
Qed.

End Uploads.

(** X17. An upload that succeeds: with the API URL configured, dropping
    the file [f] sends it to "<api>/extract/<modelId>" and shows the upload
    screen in the loading state, without an error, whatever was shown
    before; when the response [data] arrives the two panes are shown for
    [f] and [data] on page 1, and loading has ended. *)
Theorem upload_then_success
        (api : string) (f : Host.FileObject) (h : Host.Home)
        (data : Host.ExtractionResult) :
  api <> ""%string ->
  (Host.handleFileUpload (Some api) f h).2
  = Some (Host.mkRequest (api ++ "/extract/" ++ Host.modelId h) f)
  /\ Host.screen (Host.handleFileUpload (Some api) f h).1
     = Host.UploadScreen true None
  /\ Host.screen (Host.handleFileUpload_end
                    (Host.Ok data) (Host.handleFileUpload (Some api) f h).1)
     = Host.DualPane f data 1
  /\ Host.isLoading (Host.handleFileUpload_end
                       (Host.Ok data) (Host.handleFileUpload (Some api) f h).1)
     = false.
Proof.
  intros Hapi. rewrite (configured api f h Hapi). repeat split.
Qed.

Lemma upload_then_success_witness :
  Host.screen
    (Host.handleFileUpload_end
       (Host.Ok (Host.mkResult "# T" [] (Host.mkMetrics 1 0 1)))
       (Host.handleFileUpload (Some "http://localhost:8000")
                              (Host.mkFile 0%nat [] "application/pdf")
                              Host.initial).1)
  = Host.DualPane (Host.mkFile 0%nat [] "application/pdf")
                  (Host.mkResult "# T" [] (Host.mkMetrics 1 0 1)) 1.
Proof.
  apply (upload_then_success "http://localhost:8000"
                             (Host.mkFile 0%nat [] "application/pdf") Host.initial).
  discriminate.
Defined.

(** X18. An upload that fails: whatever the state, when the request ends
    otherwise than with a parsed ok response, the file is dropped, loading
    ends and the upload screen shows the message: the [detail] of the error
    body if it is truthy, else "Extraction failed with status <status>.";
    the message of a thrown [Error] (a [fetch] that fails, a body that is
    not JSON, or an error body that is [null], whose [detail] cannot be
    read); or "An unknown error occurred during extraction." for any
    other thrown value. *)
Theorem upload_failure_shows_message (o : Host.Outcome) (h : Host.Home) :
  (forall data, o <> Host.Ok data) ->
  exists msg,
    Host.screen (Host.handleFileUpload_end o h) = Host.UploadScreen false (Some msg)
    /\ Host.file (Host.handleFileUpload_end o h) = None
    /\ match o with
       | Host.NotOk status (Host.Truthy t) => msg = t
       | Host.NotOk status Host.Falsy =>
           msg = ("Extraction failed with status " ++ pretty status ++ ".")%string
       | Host.Threw (Host.ErrorObject m) => msg = m
       | Host.Threw (Host.OtherValue _) =>
           msg = "An unknown error occurred during extraction."%string
       | Host.Ok _ => False
       end.
Proof.
  intros Hfail.
  destruct o as [[m|t]|status [|t]|data]; simpl;
    try (eexists; repeat split; reflexivity).
  exfalso. apply (Hfail data). reflexivity.
Qed.

Lemma upload_failure_shows_message_witness :
  exists msg,
    Host.screen (Host.handleFileUpload_end (Host.NotOk 500 Host.Falsy) Host.initial)
    = Host.UploadScreen false (Some msg)
    /\ Host.file (Host.handleFileUpload_end (Host.NotOk 500 Host.Falsy) Host.initial)
       = None
    /\ msg = ("Extraction failed with status " ++ pretty 500%N ++ ".")%string.
Proof.
  apply (upload_failure_shows_message (Host.NotOk 500 Host.Falsy) Host.initial).
  discriminate.
Defined.

(** X19. Without an API URL (undefined or empty) an upload sends nothing
    and only sets the error text: file, results, page, model and loading
    flag are as before, so the screen shown is the same apart from the
    error. *)
Theorem upload_without_api (api : option string) (f : Host.FileObject)
        (h : Host.Home) :
  api = None \/ api = Some ""%string ->
  Host.handleFileUpload api f h
  = (Host.setError
       (Some "API URL not configured. Check NEXT_PUBLIC_API_BASE_URL."%string) h,
     None)
  /\ match Host.screen h with
     | Host.DualPane g r p =>
         Host.screen (Host.handleFileUpload api f h).1 = Host.DualPane g r p
     | Host.UploadScreen l _ =>
         Host.screen (Host.handleFileUpload api f h).1
         = Host.UploadScreen
             l (Some "API URL not configured. Check NEXT_PUBLIC_API_BASE_URL."%string)
     end.
Proof.
  intros [-> | ->]; (split; [reflexivity|]);
    unfold Host.screen; simpl;
    destruct (Host.file h), (Host.results h); reflexivity.
Qed.

Lemma upload_without_api_witness :
  Host.handleFileUpload None (Host.mkFile 0%nat [] "application/pdf") Host.initial
  = (Host.setError
       (Some "API URL not configured. Check NEXT_PUBLIC_API_BASE_URL."%string)
       Host.initial,
     None).
Proof.
  apply (upload_without_api None (Host.mkFile 0%nat [] "application/pdf") Host.initial).
  left. reflexivity.
Defined.

(** X20. Responses are not matched to uploads.  When a second file [g] is
    dropped while the upload of [f] is in flight, the response to [f]'s
    upload is shown with [g]: the two panes appear for [g] with the data
    extracted from [f], and loading is reported as ended.  And if [f]'s
    upload fails instead, [g] is dropped too: a later success of [g]'s
    upload shows nothing but the upload screen with [f]'s error. *)
Theorem responses_are_not_matched
        (api : string) (f g : Host.FileObject) (h : Host.Home)
        (data_f data_g : Host.ExtractionResult) (o : Host.Outcome) (msg : string) :
  api <> ""%string -> Host.uploadFailure o = Some msg ->
  let both := (Host.handleFileUpload (Some api) g
                 (Host.handleFileUpload (Some api) f h).1).1 in
  Host.screen both = Host.UploadScreen true None
  /\ Host.screen (Host.handleFileUpload_end (Host.Ok data_f) both)
     = Host.DualPane g data_f 1
  /\ Host.isLoading (Host.handleFileUpload_end (Host.Ok data_f) both) = false
  /\ Host.screen (Host.handleFileUpload_end
                    (Host.Ok data_g) (Host.handleFileUpload_end o both))
     = Host.UploadScreen false (Some msg).
Proof.
  intros Hapi Hmsg both. subst both.
  rewrite (configured api g _ Hapi), (configured api f h Hapi).
  rewrite (upload_end_failure o msg _ Hmsg).
  repeat split.
Qed.

Lemma responses_are_not_matched_witness :
  let f := Host.mkFile 0%nat [] "application/pdf" in
  let g := Host.mkFile 1%nat [] "application/pdf" in
  let data := Host.mkResult "# F" [] (Host.mkMetrics 1 0 1) in
  Host.screen
    (Host.handleFileUpload_end
       (Host.Ok data)
       (Host.handleFileUpload (Some "http://api") g
          (Host.handleFileUpload (Some "http://api") f Host.initial).1).1)
  = Host.DualPane g data 1.
Proof.
  intros f g data.
  apply (responses_are_not_matched
           "http://api" f g Host.initial data data
           (Host.Threw (Host.ErrorObject "Failed to fetch")) "Failed to fetch").
  - discriminate.
  - reflexivity.
Defined.

(** X21. The dropzone uploads PDFs only, and the first file only: a drop
    sends a request only if the API URL is configured and the first
    accepted file has the MIME type "application/pdf", and the request
    carries that file; an empty drop or a first file of another type
    leaves the state of the page as it is. *)
Theorem dropzone_uploads_first_pdf_only
        (api : option string) (files : list Host.FileObject) (h : Host.Home) :
  (forall req, (Host.drop api files h).2 = Some req ->
               exists rest a,
                 files = Host.body req :: rest
                 /\ Host.mime (Host.body req) = "application/pdf"%string
                 /\ api = Some a /\ a <> ""%string
                 /\ Host.url req = (a ++ "/extract/" ++ Host.modelId h)%string
                 /\ Host.fileName_after (Host.onDrop files) []
                    = Host.name (Host.body req))
  /\ (files = []
      \/ (exists f rest, files = f :: rest
                         /\ Host.mime f <> "application/pdf"%string) ->
      Host.drop api files h = (h, None)
      /\ forall n, Host.fileName_after (Host.onDrop files) n = n).
Proof.
  split.
  - intros req Hreq. unfold Host.drop, Host.onDrop in *.
    destruct files as [|f rest]; [discriminate|].
    destruct (String.eqb_spec (Host.mime f) "application/pdf") as [Hm|];
      [|discriminate].
    unfold Host.handleFileUpload in Hreq.
    destruct api as [a|]; [|discriminate].
    destruct (String.eqb_spec a ""); [discriminate|].
    injection Hreq as <-. exists rest, a. simpl. auto 10.
  - intros [->|(f & rest & -> & Hm)]; [split; reflexivity|].
    unfold Host.drop, Host.onDrop.
    destruct (String.eqb_spec (Host.mime f) "application/pdf");
      [contradiction|]. split; reflexivity.
Qed.

Lemma dropzone_uploads_first_pdf_only_witness :
  Host.drop (Some "http://api") [Host.mkFile 0%nat [] "image/png"] Host.initial
  = (Host.initial, None).
Proof.
  apply (dropzone_uploads_first_pdf_only
           (Some "http://api") [Host.mkFile 0%nat [] "image/png"] Host.initial).
  right. exists (Host.mkFile 0%nat [] "image/png"), [].
  split; [reflexivity | discriminate].
Defined.

(** * The markdown pane *)

(** ** The name of the downloaded file *)

Section DownloadName.

Import MarkdownOutput.

Implicit Types (s a b ws : list N) (r : bool).

Lemma squash_clean r s : Forall (fun c => is_space c = false) (squash r s).
Proof.
  revert r. induction s as [|c s IH]; intros r; simpl; [constructor|].
  destruct (is_space c) eqn:Hc.
  - destruct r; [apply IH|]. constructor; [reflexivity | apply IH].
  - constructor; [exact Hc | apply IH].
Qed.

Lemma squash_of_clean r s : Forall (fun c => is_space c = false) s -> squash r s = s.
Proof.
  intros H. revert r. induction H as [|c s Hc _ IH]; intros r; simpl;
    [reflexivity|].
  rewrite Hc. f_equal. apply IH.
Qed.

Lemma squash_length r s : (length (squash r s) <= length s)%nat.
Proof.
  revert r. induction s as [|c s IH]; intros r; simpl; [lia|].
  destruct (is_space c); [destruct r|]; simpl;
    try (pose proof (IH true)); try (pose proof (IH false)); lia.
Qed.



Lemma units_clean_md : Forall (fun c => is_space c = false) (units ".md").
Proof. repeat constructor. Qed.

End DownloadName.

(** X22. The download name is clean: it contains no white space
    character, it ends with ".md", it is "extracted.md" for an empty file
    name, and for a non-empty file name without white space it is the file
    name followed by ".md"; it is never longer than the file name plus
    three, the empty name apart. *)
Theorem download_name_is_clean (name : list N) :
  Forall (fun c => MarkdownOutput.is_space c = false)
         (MarkdownOutput.downloadName name)
  /\ MarkdownOutput.units ".md" `suffix_of` MarkdownOutput.downloadName name
  /\ (name = [] ->
      MarkdownOutput.downloadName name = MarkdownOutput.units "extracted.md")
  /\ (name <> [] -> Forall (fun c => MarkdownOutput.is_space c = false) name ->
      MarkdownOutput.downloadName name = name ++ MarkdownOutput.units ".md")
  /\ (name <> [] ->
      (length (MarkdownOutput.downloadName name) <= length name + 3)%nat).
Proof.
  unfold MarkdownOutput.downloadName, MarkdownOutput.replace_spaces.
  split; [|split; [|split; [|split]]].
  - apply Forall_app. split; [apply squash_clean | apply units_clean_md].
  - eexists. reflexivity.
  - intros ->. reflexivity.
  - intros Hne Hc. destruct name; [contradiction|].
    now rewrite (squash_of_clean false _ Hc).
  - intros Hne. destruct name as [|c name]; [contradiction|].
    rewrite length_app.
    pose proof (squash_length false (c :: name)). simpl in *. lia.
Qed.

Lemma download_name_is_clean_witness :
  MarkdownOutput.downloadName (MarkdownOutput.units "a.pdf")
  = MarkdownOutput.units "a.pdf" ++ MarkdownOutput.units ".md".
Proof.
  apply (download_name_is_clean (MarkdownOutput.units "a.pdf")).
  - discriminate.
  - repeat constructor.
Defined.

Example download_name_spaces :
  MarkdownOutput.downloadName (MarkdownOutput.units "my  annual report.pdf")
  = MarkdownOutput.units "my_annual_report.pdf.md".
Proof. reflexivity. Qed.



(** ** The code renderer *)

Section CodeRenderer.

Import MarkdownOutput.

Implicit Types (s w rest : string) (a : ascii).

Lemma append_cons a s rest :
  (String a s ++ rest = String a (s ++ rest))%string.
Proof. reflexivity. Qed.

Lemma append_nil_l s : ("" ++ s = s)%string.
Proof. reflexivity. Qed.

Lemma word_prefix_words s :
  Forall (fun a => is_word a = true) (list_ascii_of_string (word_prefix s)).
Proof.
  induction s as [|a s IH]; simpl; [constructor|].
  destruct (is_word a) eqn:Ha; simpl; [|constructor].
  constructor; assumption.
Qed.

Lemma word_prefix_split s : exists rest, s = (word_prefix s ++ rest)%string.
Proof.
  induction s as [|a s [rest IH]]; [exists ""%string; reflexivity|].
  cbn [word_prefix]. destruct (is_word a).
  - exists rest. rewrite append_cons. f_equal. exact IH.
  - exists (String a s). reflexivity.
Qed.

Lemma word_prefix_of_word w rest :
  Forall (fun a => is_word a = true) (list_ascii_of_string w) ->
  match rest with String a _ => is_word a = false | EmptyString => True end ->
  word_prefix (w ++ rest) = w.
Proof.
  intros Hw Hrest. induction w as [|a w IH].
  - rewrite append_nil_l.
    destruct rest as [|a rest]; cbn [word_prefix]; [reflexivity | now rewrite Hrest].
  - cbn [list_ascii_of_string] in Hw. apply Forall_cons in Hw as [Ha Hw].
    rewrite append_cons. cbn [word_prefix]. rewrite Ha. f_equal. apply IH, Hw.
Qed.

Lemma skip_prefix (n : string) s : skip (String.length n) (n ++ s) = s.
Proof.
  induction n as [|a n IH]; [reflexivity|].
  rewrite append_cons. cbn [String.length skip]. exact IH.
Qed.

Lemma language_unfold s :
  language s
  = match (if String.prefix "language-" s
           then match word_prefix (skip 9 s) with
                | EmptyString => None
                | w => Some w
                end
           else None) with
    | Some w => Some w
    | None => match s with
              | EmptyString => None
              | String _ rest => language rest
              end
    end.
Proof. destruct s; reflexivity. Qed.

Lemma language_found s w :
  language s = Some w ->
  w <> ""%string
  /\ Forall (fun a => is_word a = true) (list_ascii_of_string w)
  /\ contains ("language-" ++ w) s.
Proof.
  induction s as [|a s IH]; rewrite language_unfold.
  - simpl. discriminate.
  - destruct (String.prefix "language-" (String a s)) eqn:Hp.
    + apply prefix_spec in Hp as [post Hpost].
      assert (skip 9 (String a s) = post) as Hskip
          by (rewrite Hpost; apply (skip_prefix "language-")).
      rewrite Hskip.
      destruct (word_prefix post) as [|c w'] eqn:Hw.
      * intros H. destruct (IH H) as (Hne & Hall & pre & post' & E).
        repeat split; trivial. exists (String a pre), post'.
        rewrite append_cons. f_equal. exact E.
      * intros [= <-]. split; [discriminate|]. split.
        -- rewrite <- Hw. apply word_prefix_words.
        -- destruct (word_prefix_split post) as [rest Hrest].
           exists ""%string, rest. rewrite Hpost.
           rewrite Hw in Hrest. rewrite Hrest. reflexivity.
    + intros H. destruct (IH H) as (Hne & Hall & pre & post' & E).
      repeat split; trivial. exists (String a pre), post'.
      rewrite append_cons. f_equal. exact E.
Qed.

Lemma language_none s : ~ contains "language-" s -> language s = None.
Proof.
  induction s as [|a s IH]; intros Hno; rewrite language_unfold.
  - reflexivity.
  - destruct (String.prefix "language-" (String a s)) eqn:Hp.
    + exfalso. apply Hno. apply prefix_spec in Hp as [post E].
      exists ""%string, post. exact E.
    + apply IH. intros (pre & post & E). apply Hno.
      exists (String a pre), post. rewrite append_cons. f_equal. exact E.
Qed.

Lemma language_exact w rest :
  w <> ""%string ->
  Forall (fun a => is_word a = true) (list_ascii_of_string w) ->
  match rest with String a _ => is_word a = false | EmptyString => True end ->
  language ("language-" ++ w ++ rest) = Some w.
Proof.
  intros Hne Hw Hrest. rewrite language_unfold.
  assert (String.prefix "language-" ("language-" ++ w ++ rest) = true) as ->
      by (apply prefix_spec; eexists; reflexivity).
  change 9%nat with (String.length "language-").
  rewrite (skip_prefix "language-"), (word_prefix_of_word w rest Hw Hrest).
  destruct w; [contradiction | reflexivity].
Qed.

Lemma chomp_cons a b s : chomp (String a (String b s)) = String a (chomp (String b s)).
Proof. reflexivity. Qed.

Lemma chomp_newline s : chomp (s ++ String "010" "") = s.
Proof.
  induction s as [|a s IH]; [reflexivity|].
  destruct s as [|b s]; [reflexivity|].
  rewrite !append_cons, chomp_cons, <- append_cons. f_equal. exact IH.
Qed.

Lemma chomp_other s :
  (forall t, s <> (t ++ String "010" "")%string) -> chomp s = s.
Proof.
  induction s as [|a s IH]; intros Hno; [reflexivity|].
  destruct s as [|b s].
  - simpl. destruct (Ascii.eqb_spec a "010") as [->|]; [|reflexivity].
    exfalso. apply (Hno ""%string). reflexivity.
  - rewrite chomp_cons. f_equal. apply IH. intros t E.
    apply (Hno (String a t)). rewrite append_cons. f_equal. exact E.
Qed.

End CodeRenderer.

Example language_of_class :
  MarkdownOutput.language "hljs language-python extra" = Some "python"%string
  /\ MarkdownOutput.language "language- language-c++" = Some "c"%string
  /\ MarkdownOutput.language "lang-js" = None.
Proof. repeat split. Qed.

(** X24. The language of a code block: when the renderer finds a
    language in the class name it is a non-empty run of word characters
    [A-Za-z0-9_] that follows "language-" in the class name; a class name
    "language-<w>" followed by nothing or by a non-word character gives
    exactly [w]; a class name without "language-", or no class name, gives
    none, and the code is then shown plain. *)
Theorem code_language (className : string) (children : string) :
  (forall w, MarkdownOutput.language className = Some w ->
             w <> ""%string
             /\ Forall (fun a => MarkdownOutput.is_word a = true)
                       (list_ascii_of_string w)
             /\ contains ("language-" ++ w) className
             /\ MarkdownOutput.code false (Some className) children
                = MarkdownOutput.Highlighter w (MarkdownOutput.chomp children)
             /\ MarkdownOutput.code true (Some className) children
                = MarkdownOutput.PlainCode (Some className) children)
  /\ (forall w rest,
         className = ("language-" ++ w ++ rest)%string ->
         w <> ""%string ->
         Forall (fun a => MarkdownOutput.is_word a = true)
                (list_ascii_of_string w) ->
         match rest with
         | String a _ => MarkdownOutput.is_word a = false
         | EmptyString => True
         end ->
         MarkdownOutput.language className = Some w)
  /\ (~ contains "language-" className ->
      MarkdownOutput.code false (Some className) children
      = MarkdownOutput.PlainCode (Some className) children)
  /\ MarkdownOutput.code false None children
     = MarkdownOutput.PlainCode None children.
Proof.
  split; [|split; [|split]].
  - intros w Hw. destruct (language_found className w Hw) as (H1 & H2 & H3).
    repeat split; trivial; unfold MarkdownOutput.code; simpl; now rewrite Hw.
  - intros w rest -> Hne Hw Hrest. apply language_exact; assumption.
  - intros Hno. unfold MarkdownOutput.code. simpl.
    now rewrite (language_none className Hno).
  - reflexivity.
Qed.

Lemma code_language_witness :
  MarkdownOutput.language "language-python" = Some "python"%string.
Proof.
  apply (proj1 (proj2 (code_language "language-python" "")) "python" ""%string).
  - reflexivity.
  - discriminate.
  - repeat constructor.
  - exact I.
Defined.

(** X25. The highlighted text is the code without one final line feed:
    a text ending in a line feed loses exactly that line feed, and a text
    that does not end in a line feed is unchanged. *)
Theorem highlighted_text_loses_one_newline (s : string) :
  MarkdownOutput.chomp (s ++ String "010" "") = s
  /\ ((forall t, s <> (t ++ String "010" "")%string) ->
      MarkdownOutput.chomp s = s).
Proof.
  split.
  - apply chomp_newline.
  - apply chomp_other.
Qed.

Lemma highlighted_text_loses_one_newline_witness :
  MarkdownOutput.chomp "x = 1" = "x = 1"%string.
Proof.
  apply (highlighted_text_loses_one_newline "x = 1").
  intros t E.
  repeat (destruct t as [|? t]; [discriminate E|];
          rewrite append_cons in E; injection E as _ E).
  destruct t; discriminate E.
Defined.

(** ** Downloads *)

Section Downloads.

Implicit Types (log : Registry) (u : Url) (p : option Url).




Lemma settled_pending_fresh u log :
  App.Settled (Some u) log -> (u < length log)%nat.
Proof.
  intros [Hfresh _ Hperm _]. rewrite Forall_forall in Hfresh. apply Hfresh.
  rewrite Hperm. apply list_elem_of_here.
Qed.



(** A URL created and revoked at once leaves the registry settled as it
    was. *)
Lemma settled_transient p log :
  App.Settled p log ->
  App.Settled p (Revoke (length log) :: Create (length log) :: log)
  /\ live (Revoke (length log) :: Create (length log) :: log) = live log.
Proof.
  intros Hs.
  assert (live (Revoke (length log) :: Create (length log) :: log) = live log)
    as Hsame.
  { simpl. rewrite difference_union_distr_l_L, difference_diag_L,
      union_empty_r_L.
    apply difference_disjoint_L.
    destruct p as [u|].
    - pose proof (settled_pending_fresh u log Hs).
      destruct Hs as [_ _ _ Hlive]. rewrite Hlive.
      apply disjoint_singleton_l, not_elem_of_singleton. lia.
    - destruct Hs as [_ _ _ Hlive]. rewrite Hlive. apply disjoint_empty_l. }
  split; [|exact Hsame].
  destruct Hs as [Hfresh Hnodup Hperm Hlive]. split.
  - simpl. constructor; [lia|].
    eapply Forall_impl; [exact Hfresh|]. simpl. intros; lia.
  - simpl. constructor; [|exact Hnodup].
    intros Hin. rewrite Forall_forall in Hfresh.
    specialize (Hfresh _ Hin). simpl in Hfresh. lia.
  - simpl. rewrite Hperm. apply Permutation_middle.
  - rewrite Hsame. exact Hlive.
Qed.


End Downloads.



(** X27. A download leaves the registry of object URLs as it found it:
    on success one fresh URL is created, offered under the download name
    and revoked at once, so the set of live URLs, and with it the URL of a
    mounted viewer, is unchanged; on failure nothing is created and one
    alert that starts with "Download failed: " is raised. *)
Theorem download_leaves_registry_settled
        (f : Host.FileObject) (o : MarkdownOutput.Outcome)
        (pending : option Url) (log : Registry) :
  App.Settled pending log ->
  App.Settled pending (MarkdownOutput.handleDownload_end f o log).2
  /\ live (MarkdownOutput.handleDownload_end f o log).2 = live log
  /\ match o with
     | MarkdownOutput.Ok _ =>
         MarkdownOutput.handleDownload_end f o log
         = (MarkdownOutput.SaveAs (length log)
                                  (MarkdownOutput.downloadName (Host.name f)),
            Revoke (length log) :: Create (length log) :: log)
     | _ =>
         (MarkdownOutput.handleDownload_end f o log).2 = log
         /\ exists text,
             (MarkdownOutput.handleDownload_end f o log).1
             = MarkdownOutput.Alert ("Download failed: " ++ text)
     end.
Proof.
  intros Hs. destruct o as [e|err|blob]; simpl.
  - split; [exact Hs|]. split; [reflexivity|]. split; [reflexivity|].
    destruct e; eexists; reflexivity.
  - split; [exact Hs|]. split; [reflexivity|]. split; [reflexivity|].
    eexists; reflexivity.
  - destruct (settled_transient pending log Hs) as [H1 H2].
    split; [exact H1|]. split; [exact H2 | reflexivity].
Qed.

Lemma download_leaves_registry_settled_witness :
  live (MarkdownOutput.handleDownload_end
          (Host.mkFile 0%nat [] "application/pdf") (MarkdownOutput.Ok 1%nat)
          [Create 0%nat]).2
  = live [Create 0%nat].
Proof.
  apply (download_leaves_registry_settled
           (Host.mkFile 0%nat [] "application/pdf") (MarkdownOutput.Ok 1%nat)
           (Some 0%nat) [Create 0%nat]).
  split; simpl.
  - repeat constructor.
  - apply NoDup_singleton.
  - reflexivity.
  - apply union_empty_l_L.
Defined.

(** * The page as a whole *)

Section WholePage.

Implicit Types (a : App.App) (h : Host.Home) (v : View) (log : Registry).












End WholePage.

Example a_session :
  let pdf := Host.mkFile 0%nat (MarkdownOutput.units "a b.pdf") "application/pdf" in
  let data := Host.mkResult "# T" [mkElement "title" [100; 100; 900; 200]%float 1]
                            (Host.mkMetrics 1 1 1) in
  let a := App.run (Some "http://api")
                   [App.Drop [pdf]; App.UploadEnds (Host.Ok data);
                    App.Callback (mkDelivery 0%nat (LoadSuccess 3));
                    App.Press Next; App.DownloadEnds pdf (MarkdownOutput.Ok 5%nat);
                    App.ClearFile; App.DownloadEnds pdf (MarkdownOutput.Ok 6%nat)]
                   App.start in
  App.registry a = [Revoke 4%nat; Create 4%nat; Revoke 0%nat; Revoke 1%nat;
                    Create 1%nat; Create 0%nat]
  /\ Host.screen (App.home a) = Host.UploadScreen false None
  /\ Host.currentPage (App.home a) = 2.
Proof. repeat split. Qed.

